(** * Character Chat: memory and context assembly, verified against the sources

    The development embeds four pieces of the repository:

    - the relevance score [calculate_memory_relevance] and the context
      assembly [assemble_context] of the memory architecture document
      (the Python listings of the "Attention Refresh Mechanism" and
      "Context Assembly Algorithm" sections);
    - the chat store of the web client ([sendMessage] and its stream
      callbacks, [loadCharacterSession], [clearCurrentChat],
      [getRecentChats], [getSessionStats]) and the preview of the recent
      characters panel;
    - the reader of the event stream in the API client ([streamChat])
      and [formatRelativeTime] of the utilities;
    - the ranking, extraction and summarisation steps whose code is not
      part of the sources; these are modelled from the specification and
      marked as such.

    Part I holds the definitions, Part II the theorems. *)

From Stdlib Require Import ZArith QArith Reals Lra Lia List String Ascii Floats.
From Stdlib Require Import Permutation Sorted.
From stdpp Require Import gmap strings list pretty.

Close Scope Q_scope.
Close Scope R_scope.
Open Scope Z_scope.

(* ===================================================================== *)
(** * Part I. Definitions *)
(* ===================================================================== *)

(** ** Arithmetic of the Python listings

    The listings compute with Python [float]s (IEEE 754 binary64) and
    [int]s.  The scoring function is written once over the operations it
    uses and read twice: over Rocq's primitive binary64 floats, which is
    what the interpreter does, and over the real numbers, which is the
    arithmetic the formula is meant in. *)

Record Arith (F : Type) : Type := MkArith {
  lit : Q -> F;          (* a decimal literal of the source, such as 0.4 *)
  of_int : Z -> F;       (* an [int] operand of a true division *)
  fadd : F -> F -> F;
  fmul : F -> F -> F;
  fdiv : F -> F -> F;
  fpow : F -> F -> F;     (* the [**] operator *)
  flt : F -> F -> bool    (* the [<] comparison *)
}.

Arguments lit {F} _ _.
Arguments of_int {F} _ _.
Arguments fadd {F} _ _ _.
Arguments fmul {F} _ _ _.
Arguments fdiv {F} _ _ _.
Arguments fpow {F} _ _ _.
Arguments flt {F} _ _ _.

(** [int] to [float]: exact below 2^53 in absolute value, which covers
    [timedelta.days] (at most 999999999) and every count a store holds. *)
Definition float_of_Z (z : Z) : float :=
  if z <? 0 then PrimFloat.opp (PrimFloat.of_uint63 (Uint63.of_Z (- z)))
  else PrimFloat.of_uint63 (Uint63.of_Z z).

(** A decimal literal is read as the double nearest to it: the correctly
    rounded quotient of numerator and denominator. *)
Definition float_of_Q (q : Q) : float :=
  PrimFloat.div (float_of_Z (Qnum q)) (float_of_Z (Z.pos (Qden q))).

(** Binary64 arithmetic.  Python's [**] on floats is the platform's
    [pow]; it is not a primitive of the kernel and is taken as a
    parameter. *)
Definition binary64 (libm_pow : float -> float -> float) : Arith float :=
  {| lit := float_of_Q;
     of_int := float_of_Z;
     fadd := PrimFloat.add;
     fmul := PrimFloat.mul;
     fdiv := PrimFloat.div;
     fpow := libm_pow;
     flt := PrimFloat.ltb |}.

(** Exact arithmetic over the reals. *)
Definition real_arith : Arith R :=
  {| lit := Q2R;
     of_int := IZR;
     fadd := Rplus;
     fmul := Rmult;
     fdiv := Rdiv;
     fpow := Rpower;
     flt := fun x y => if Rlt_dec x y then true else false |}.

(** Python's two-argument [min]: the second argument wins only when it
    is strictly smaller. *)
Definition py_min {F} (A : Arith F) (a b : F) : F :=
  if flt A b a then b else a.

(** ** Time

    A [datetime] is a count of microseconds since the epoch; the
    difference of two is a [timedelta], whose [.days] is the floor of the
    difference in days. *)

Definition datetime := Z.
Definition timedelta := Z.
Definition microseconds_per_day : Z := 86400 * 1000000.
Definition days (d : timedelta) : Z := d / microseconds_per_day.

(** ** The memories collection *)

Inductive MemoryType := fact | preference | emotion | event.

Record Memory (F : Type) : Type := MkMemory {
  mem_id : Z;
  mem_user_id : string;
  mem_character_name : string;
  mem_type : MemoryType;
  mem_content : string;
  mem_embedding : list F;
  mem_importance : F;
  mem_access_count : Z;
  mem_last_accessed : datetime;
  mem_created_at : datetime;
  mem_source_session_id : string;
  mem_source_message_id : string
}.

Arguments MkMemory {F}.
Arguments mem_id {F} _.
Arguments mem_user_id {F} _.
Arguments mem_character_name {F} _.
Arguments mem_type {F} _.
Arguments mem_content {F} _.
Arguments mem_embedding {F} _.
Arguments mem_importance {F} _.
Arguments mem_access_count {F} _.
Arguments mem_last_accessed {F} _.
Arguments mem_created_at {F} _.
Arguments mem_source_session_id {F} _.
Arguments mem_source_message_id {F} _.

(** ** Access to a Python object

    A function that receives an object can read and assign its
    attributes.  Such a function is a state transformer on the object. *)

Definition Access (Obj X : Type) : Type := Obj -> X * Obj.

Definition ret {Obj X} (x : X) : Access Obj X := fun s => (x, s).

Definition bind {Obj X Y} (c : Access Obj X) (k : X -> Access Obj Y) : Access Obj Y :=
  fun s => let (x, s') := c s in k x s'.

Definition getattr {Obj X} (field : Obj -> X) : Access Obj X := fun s => (field s, s).

Definition setattr {Obj} (update : Obj -> Obj) : Access Obj unit := fun s => (tt, update s).

Definition result {Obj X} (c : Access Obj X) (s : Obj) : X := fst (c s).

Definition object_after {Obj X} (c : Access Obj X) (s : Obj) : Obj := snd (c s).

Declare Scope access_scope.
Delimit Scope access_scope with access.
Notation "'let*' x ':=' c 'in' k" := (bind c (fun x => k))
  (at level 10, x name, c at level 100, k at level 200) : access_scope.

(** ** The embedding backend

    [embed] and [cosine_similarity] are calls into the vector backend;
    the listing only uses them. *)

Record Backend (F : Type) : Type := MkBackend {
  embed : string -> list F;
  cosine_similarity : list F -> list F -> F
}.

Arguments embed {F} _ _.
Arguments cosine_similarity {F} _ _ _.

(** ** calculate_memory_relevance *)

Section Relevance.

Context {F : Type} (A : Arith F) (B : Backend F).

Local Notation "x + y" := (fadd A x y) : access_scope.
Local Notation "x * y" := (fmul A x y) : access_scope.
Local Notation "x / y" := (fdiv A x y) : access_scope.
Local Notation "x ** y" := (fpow A x y) (at level 30, right associativity) : access_scope.

Local Open Scope access_scope.

Definition calculate_memory_relevance
  (current_query : string) (current_time : datetime) : Access (Memory F) F :=
  (* Semantic similarity (0-1) *)
  let* content := getattr mem_content in
  let semantic_score :=
    cosine_similarity B (embed B content) (embed B current_query) in
  (* Recency decay (half-life of 7 days) *)
  let* last_accessed := getattr mem_last_accessed in
  let days_old := days (current_time - last_accessed)%Z in
  let recency_score := lit A 0.5 ** (of_int A days_old / of_int A 7) in
  (* Importance weight *)
  let* importance_score := getattr mem_importance in
  (* Access frequency boost *)
  let* access_count := getattr mem_access_count in
  let frequency_boost := py_min A (of_int A access_count / of_int A 10) (lit A 1) in
  (* Combined score *)
  ret (semantic_score * lit A 0.4 +
       recency_score * lit A 0.2 +
       importance_score * lit A 0.3 +
       frequency_boost * lit A 0.1).

(** The formula as the specification words it, for comparison with the
    listing: weights first, recency and frequency named. *)

Definition spec_recency (now : datetime) (last_accessed : datetime) : F :=
  let age_days := days (now - last_accessed)%Z in
  lit A 0.5 ** (of_int A age_days / of_int A 7).

Definition spec_frequency (access_count : Z) : F :=
  py_min A (of_int A access_count / of_int A 10) (lit A 1).

Definition spec_score (memory : Memory F) (query : string) (now : datetime) : F :=
  lit A 0.4 * cosine_similarity B (embed B (mem_content memory)) (embed B query) +
  lit A 0.2 * spec_recency now (mem_last_accessed memory) +
  lit A 0.3 * mem_importance memory +
  lit A 0.1 * spec_frequency (mem_access_count memory).

End Relevance.

(** The score of a memory, as a value. *)
Definition score {F} (A : Arith F) (B : Backend F)
  (memory : Memory F) (query : string) (now : datetime) : F :=
  result (calculate_memory_relevance A B query now) memory.

(** Modelled from the spec: the update a caller makes when it has
    retrieved a memory, which is not in the sources.  Section 3: "reads
    update access_count/last_accessed only". *)
Definition record_access {F} (now : datetime) : Access (Memory F) unit :=
  setattr (fun m =>
    {| mem_id := mem_id m;
       mem_user_id := mem_user_id m;
       mem_character_name := mem_character_name m;
       mem_type := mem_type m;
       mem_content := mem_content m;
       mem_embedding := mem_embedding m;
       mem_importance := mem_importance m;
       mem_access_count := mem_access_count m + 1;
       mem_last_accessed := now;
       mem_created_at := mem_created_at m;
       mem_source_session_id := mem_source_session_id m;
       mem_source_message_id := mem_source_message_id m |}).

(** ** The sessions and entities collections *)

Inductive MessageRole := role_user | role_assistant.

Record Message : Type := MkMessage {
  msg_role : MessageRole;
  msg_content : string;
  msg_timestamp : datetime;
  msg_tokens : Z
}.

Inductive EntityType := person | place | thing | entity_event.

Record Entity : Type := MkEntity {
  ent_id : Z;
  ent_user_id : string;
  ent_character_name : option string;   (* null for global entities *)
  ent_entity_type : EntityType;
  ent_name : string;
  ent_relationship : string;
  ent_details : string;
  ent_first_mentioned : datetime;
  ent_last_mentioned : datetime;
  ent_mention_count : Z
}.

(** ** assemble_context

    The listing calls nine helpers of the memory service.  Their code is
    not part of the sources; the assembly is modelled over any
    implementation of them. *)

Record Stores (F : Type) : Type := MkStores {
  get_character_profile : string -> string;
  get_user_entities : string -> string -> list Entity;
  format_user_profile : list Entity -> string;
  get_last_session_summary : string -> string -> option string;
  (* semantic_search(query, user_id, character, limit) *)
  semantic_search : string -> string -> string -> Z -> list (Memory F);
  format_memories : list (Memory F) -> string;
  get_working_memory : string -> string;
  (* get_recent_messages(session_id, max_tokens) *)
  get_recent_messages : string -> Z -> list Message;
  format_messages : list Message -> string
}.

Arguments get_character_profile {F} _ _.
Arguments get_user_entities {F} _ _ _.
Arguments format_user_profile {F} _ _.
Arguments get_last_session_summary {F} _ _ _.
Arguments semantic_search {F} _ _ _ _ _.
Arguments format_memories {F} _ _.
Arguments get_working_memory {F} _ _.
Arguments get_recent_messages {F} _ _ _.
Arguments format_messages {F} _ _.

(** The listing reads two names it never binds, [session_id] and
    [session_message_count]: the session the request belongs to. *)
Record ActiveSession : Type := MkActiveSession {
  session_id : string;
  session_message_count : Z
}.

(** Each entry of the returned list is remembered together with the
    numbered step of the listing that appended it. *)
Inductive SectionLabel :=
| CharacterProfile      (* 1. Character Profile *)
| UserProfile           (* 2. Entity Memory - User profile *)
| EpisodicMemory        (* 3. Episodic Memory - Last session summary *)
| LongTermMemory        (* 4. Long-term Memory *)
| WorkingMemory         (* 5. Working Memory *)
| ShortTermBuffer.      (* 6. Short-term Buffer *)

Record ContextSection : Type := MkSection {
  label : SectionLabel;
  text : string
}.

#[global] Instance SectionLabel_eq_dec : EqDecision SectionLabel.
Proof. solve_decision. Defined.

(** Python's truth value of an optional string: [None] and the empty
    string are false. *)
Definition truthy (s : option string) : option string :=
  match s with
  | Some EmptyString => None
  | other => other
  end.

Section Assembly.

Context {F : Type} (svc : Stores F) (session : ActiveSession).

(** The body of [assemble_context], statement by statement; the result
    is the list [context] at the [return] together with the final value
    of the local [token_budget]. *)
Definition assemble_trace (user_id character current_message : string)
  : list ContextSection * Z :=
  let context := [] in
  let token_budget := 4000 in
  (* 1. Character Profile (always included) *)
  let context := context ++ [MkSection CharacterProfile (get_character_profile svc character)] in
  let token_budget := token_budget - 500 in
  (* 2. Entity Memory - User profile (always included) *)
  let user_profile := get_user_entities svc user_id character in
  let context := context ++ [MkSection UserProfile (format_user_profile svc user_profile)] in
  let token_budget := token_budget - 200 in
  (* 3. Episodic Memory - Last session summary (if exists) *)
  let last_session := get_last_session_summary svc user_id character in
  let '(context, token_budget) :=
    match truthy last_session with
    | Some summary =>
        (context ++ [MkSection EpisodicMemory ("Last conversation: " +:+ summary)],
         token_budget - 200)
    | None => (context, token_budget)
    end in
  (* 4. Long-term Memory - Retrieve relevant facts *)
  let relevant_memories := semantic_search svc current_message user_id character 5 in
  let context := context ++ [MkSection LongTermMemory (format_memories svc relevant_memories)] in
  let token_budget := token_budget - 300 in
  (* 5. Working Memory - Current session summary (if long conversation) *)
  let '(context, token_budget) :=
    if 10 <? session_message_count session then
      let working_memory := get_working_memory svc (session_id session) in
      (context ++ [MkSection WorkingMemory ("Conversation so far: " +:+ working_memory)],
       token_budget - 300)
    else (context, token_budget) in
  (* 6. Short-term Buffer - Recent messages (fill remaining budget) *)
  let recent_messages := get_recent_messages svc (session_id session) token_budget in
  let context := context ++ [MkSection ShortTermBuffer (format_messages svc recent_messages)] in
  (context, token_budget).

Definition assemble_sections (user_id character current_message : string)
  : list ContextSection :=
  fst (assemble_trace user_id character current_message).

(** What the caller receives: the list of strings. *)
Definition assemble_context (user_id character current_message : string)
  : list string :=
  map text (assemble_sections user_id character current_message).

(** The [max_tokens] the listing hands to [get_recent_messages]. *)
Definition buffer_budget (user_id character current_message : string) : Z :=
  snd (assemble_trace user_id character current_message).

End Assembly.

(** Token counts of a bundle under a tokenizer. *)
Definition total_tokens (count_tokens : string -> Z) (context : list string) : Z :=
  fold_right Z.add 0 (map count_tokens context).

(** A simple tokenizer for examples: one token per word, a word being a
    maximal run of characters other than the space. *)
Fixpoint words_from (in_word : bool) (s : string) : Z :=
  match s with
  | EmptyString => 0
  | String c rest =>
      if Ascii.eqb c " "%char then words_from false rest
      else (if in_word then 0 else 1) + words_from true rest
  end.

Definition word_count (s : string) : Z := words_from false s.

Fixpoint repeat_string (n : nat) (s : string) : string :=
  match n with
  | O => EmptyString
  | S n' => s +:+ repeat_string n' s
  end.

(** ** The chat store of the web client

    [chat-store.ts] keeps one [ChatSession] per character in a zustand
    store.  A timestamp is produced by [new Date().toISOString()], a
    fixed-width rendering (for the years 0000 to 9999) of the clock's
    milliseconds since the epoch; it is kept here as that number, which
    orders the same way. *)

Definition instant := Z.

Record ChatMessage : Type := MkChatMessage {
  content : string;
  role : MessageRole;
  timestamp : instant;
  character_name : option string
}.

Inductive RelationshipType := ally | enemy | neutral | family | friend | lover.

Record Character : Type := MkCharacter {
  name : string;
  description : string;
  powers : list string;
  story_arcs : list string;
  avatar : string;
  relationships : list (string * RelationshipType)
}.

Record ChatSession : Type := MkChatSession {
  characterId : string;
  characterName : string;
  sessionId : string;
  messages : list ChatMessage;
  lastActivity : instant;
  memoriesUsed : Z;
  tokensUsed : Z;
  isNewSession : bool
}.

Record ChatState : Type := MkChatState {
  currentCharacter : option Character;
  currentSession : option ChatSession;
  sessions : gmap string ChatSession;
  isTyping : bool;
  streamingContent : string;
  statusMessage : string;
  error : option string
}.

(** The payload of the stream's [done] event; every field is optional. *)
Record DonePayload : Type := MkDone {
  done_session_id : option string;
  done_memories_used : option Z;
  done_tokens_used : option Z
}.

(** JavaScript's [a || b] on an optional number: [undefined] and [0] are
    falsy. *)
Definition or_number (a : option Z) (b : Z) : Z :=
  match a with
  | Some n => if n =? 0 then b else n
  | None => b
  end.

(** [a || b] on an optional string: [undefined] and the empty string are
    falsy. *)
Definition or_string (a : option string) (b : string) : string :=
  match truthy a with
  | Some s => s
  | None => b
  end.

(** A call of [sendMessage] leaves behind the callbacks it handed to
    [api.streamChat]; they close over the constants of that call. *)
Record Request : Type := MkRequest {
  req_currentCharacter : Character;
  req_currentSession : ChatSession;
  req_updatedSession : ChatSession
}.

Record Runtime : Type := MkRuntime {
  store : ChatState;
  pending : list Request
}.

(** [set({ isTyping, streamingContent, statusMessage, error })] *)
Definition set_ui (typing : bool) (streaming status : string)
  (err : option string) (st : ChatState) : ChatState :=
  {| currentCharacter := currentCharacter st;
     currentSession := currentSession st;
     sessions := sessions st;
     isTyping := typing;
     streamingContent := streaming;
     statusMessage := status;
     error := err |}.

(** [set((state) => ({ sessions: { ...state.sessions, [key]: s },
    currentSession: s }))] *)
Definition set_session (key : string) (s : ChatSession) (st : ChatState) : ChatState :=
  {| currentCharacter := currentCharacter st;
     currentSession := Some s;
     sessions := <[key := s]> (sessions st);
     isTyping := isTyping st;
     streamingContent := streamingContent st;
     statusMessage := statusMessage st;
     error := error st |}.

Definition initial_state : ChatState :=
  {| currentCharacter := None;
     currentSession := None;
     sessions := ∅;
     isTyping := false;
     streamingContent := "";
     statusMessage := "";
     error := None |}.

(** Property names that every JavaScript object inherits from
    [Object.prototype].  The store keeps its sessions in a plain object,
    and [sessions[key]] finds these names as well as the stored keys. *)
Definition inherited (key : string) : bool :=
  bool_decide
    (key ∈ [ "constructor"; "hasOwnProperty"; "isPrototypeOf";
             "propertyIsEnumerable"; "toLocaleString"; "toString"; "valueOf";
             "__proto__"; "__defineGetter__"; "__defineSetter__";
             "__lookupGetter__"; "__lookupSetter__" ]).

(** [loadCharacterSession]: [fresh_id] stands for the identifier built
    from [Date.now()] and [Math.random()].

    The finite map holds the stored keys only.  For a key that is stored
    or is not [inherited] the lookup below is the code's
    [sessions[characterId]].  For an [inherited] key that is not stored
    the code finds the inherited object, which is no session, makes it
    the current session and creates nothing; [ChatSession] has no value
    for that object, and what is proved about loading is stated for the
    other keys. *)
Definition loadCharacterSession (characterId : string) (fresh_id : string)
  (now : instant) (st : ChatState) : ChatState :=
  match sessions st !! characterId with
  | Some existingSession =>
      (* Load existing session *)
      {| currentCharacter := currentCharacter st;
         currentSession := Some existingSession;
         sessions := sessions st;
         isTyping := isTyping st;
         streamingContent := streamingContent st;
         statusMessage := statusMessage st;
         error := error st |}
  | None =>
      (* Create new session *)
      let newSession :=
        {| characterId := characterId;
           characterName := characterId;
           sessionId := fresh_id;
           messages := [];
           lastActivity := now;
           memoriesUsed := 0;
           tokensUsed := 0;
           isNewSession := true |} in
      set_session characterId newSession st
  end.

Definition setCharacter (character : Character) (fresh_id : string)
  (now : instant) (st : ChatState) : ChatState :=
  let st :=
    {| currentCharacter := Some character;
       currentSession := currentSession st;
       sessions := sessions st;
       isTyping := isTyping st;
       streamingContent := streamingContent st;
       statusMessage := statusMessage st;
       error := None |} in
  loadCharacterSession (name character) fresh_id now st.

(** [sendMessage] up to the call of [api.streamChat].  [None] is the
    thrown "No active chat session"; nothing has been set by then. *)
Definition sendMessage (message : string) (now_message now_activity : instant)
  (rt : Runtime) : option Runtime :=
  match currentSession (store rt), currentCharacter (store rt) with
  | Some currentSession, Some currentCharacter =>
      let st := set_ui true "" "" None (store rt) in
      (* Add user message immediately *)
      let userMessage :=
        {| content := message;
           role := role_user;
           timestamp := now_message;
           character_name := Some (name currentCharacter) |} in
      (* Update current session with user message *)
      let updatedSession :=
        {| characterId := characterId currentSession;
           characterName := characterName currentSession;
           sessionId := sessionId currentSession;
           messages := messages currentSession ++ [userMessage];
           lastActivity := now_activity;
           memoriesUsed := memoriesUsed currentSession;
           tokensUsed := tokensUsed currentSession;
           isNewSession := isNewSession currentSession |} in
      let st := set_session (characterId currentSession) updatedSession st in
      (* Send to API and get streaming response *)
      Some {| store := st;
              pending := pending rt ++
                [MkRequest currentCharacter currentSession updatedSession] |}
  | _, _ => None
  end.

(** The four callbacks of a request. *)
Definition onChunk (chunk : string) (st : ChatState) : ChatState :=
  set_ui (isTyping st) (streamingContent st +:+ chunk) (statusMessage st) (error st) st.

Definition onStatus (status : string) (st : ChatState) : ChatState :=
  set_ui (isTyping st) (streamingContent st) status (error st) st.

Definition onDone (r : Request) (done : DonePayload)
  (now_message now_activity : instant) (st : ChatState) : ChatState :=
  (* Add the complete assistant message *)
  let assistantMessage :=
    {| content := streamingContent st;
       role := role_assistant;
       timestamp := now_message;
       character_name := Some (name (req_currentCharacter r)) |} in
  (* Update session with assistant message and API response data *)
  let finalSession :=
    {| characterId := characterId (req_updatedSession r);
       characterName := characterName (req_updatedSession r);
       sessionId := or_string (done_session_id done) (sessionId (req_currentSession r));
       messages := messages (req_updatedSession r) ++ [assistantMessage];
       lastActivity := now_activity;
       memoriesUsed := or_number (done_memories_used done) (memoriesUsed (req_currentSession r));
       tokensUsed := or_number (done_tokens_used done) (tokensUsed (req_currentSession r));
       isNewSession := false |} in
  set_ui false "" "" (error st)
    (set_session (characterId (req_currentSession r)) finalSession st).

Definition onError (st : ChatState) : ChatState :=
  set_ui false "" "" (Some "Failed to get response. Please try again.") st.

Definition clearCurrentChat (now : instant) (st : ChatState) : ChatState :=
  match currentSession st with
  | None => st
  | Some currentSession =>
      (* Clear messages but keep session structure *)
      let clearedSession :=
        {| characterId := characterId currentSession;
           characterName := characterName currentSession;
           sessionId := sessionId currentSession;
           messages := [];
           lastActivity := now;
           memoriesUsed := 0;
           tokensUsed := 0;
           isNewSession := true |} in
      let st := set_session (characterId currentSession) clearedSession st in
      set_ui (isTyping st) (streamingContent st) (statusMessage st) None st
  end.

Definition getCharacterMessages (characterId : string) (st : ChatState)
  : list ChatMessage :=
  match sessions st !! characterId with
  | Some s => messages s
  | None => []
  end.

(** What can happen to the store, each with the clock readings it takes
    ([new Date()] is evaluated once per reading, in this order). *)
Inductive Event :=
| SetCharacter (character : Character) (fresh_id : string) (now : instant)
| LoadCharacterSession (characterId : string) (fresh_id : string) (now : instant)
| SendMessage (message : string) (now_message now_activity : instant)
| ClearCurrentChat (now : instant)
| StreamChunk (request : nat) (chunk : string)
| StreamStatus (request : nat) (status : string)
| StreamDone (request : nat) (done : DonePayload) (now_message now_activity : instant)
| StreamError (request : nat).

Definition on_store (f : ChatState -> ChatState) (rt : Runtime) : Runtime :=
  {| store := f (store rt); pending := pending rt |}.

Definition on_request (request : nat) (f : Request -> ChatState -> ChatState)
  (rt : Runtime) : Runtime :=
  match pending rt !! request with
  | Some r => on_store (f r) rt
  | None => rt
  end.

Definition step (rt : Runtime) (e : Event) : Runtime :=
  match e with
  | SetCharacter c fresh now => on_store (setCharacter c fresh now) rt
  | LoadCharacterSession cid fresh now => on_store (loadCharacterSession cid fresh now) rt
  | SendMessage m t1 t2 =>
      match sendMessage m t1 t2 rt with
      | Some rt' => rt'
      | None => rt
      end
  | ClearCurrentChat now => on_store (clearCurrentChat now) rt
  | StreamChunk i chunk => on_request i (fun _ => onChunk chunk) rt
  | StreamStatus i status => on_request i (fun _ => onStatus status) rt
  | StreamDone i done t1 t2 => on_request i (fun r => onDone r done t1 t2) rt
  | StreamError i => on_request i (fun _ => onError) rt
  end.

Definition run (rt : Runtime) (events : list Event) : Runtime :=
  fold_left step events rt.

(** The clock readings of an event, in the order they are taken. *)
Definition readings (e : Event) : list instant :=
  match e with
  | SetCharacter _ _ now | LoadCharacterSession _ _ now | ClearCurrentChat now => [now]
  | SendMessage _ t1 t2 | StreamDone _ _ t1 t2 => [t1; t2]
  | StreamChunk _ _ | StreamStatus _ _ | StreamError _ => []
  end.

(** The sessions a runtime holds: the current one, the stored ones, and
    those captured by the callbacks of requests in flight. *)
Definition holds (rt : Runtime) (s : ChatSession) : Prop :=
  currentSession (store rt) = Some s
  \/ (exists key, sessions (store rt) !! key = Some s)
  \/ (exists r, In r (pending rt) /\ (s = req_currentSession r \/ s = req_updatedSession r)).

Definition chronological (ms : list ChatMessage) : Prop :=
  StronglySorted (fun a b => timestamp a <= timestamp b) ms.

Definition not_after (t : instant) (ms : list ChatMessage) : Prop :=
  Forall (fun m => timestamp m <= t) ms.

(** A session is in order up to time [t]. *)
Definition session_ok (t : instant) (s : ChatSession) : Prop :=
  chronological (messages s) /\ not_after t (messages s).

Definition store_holds (st : ChatState) (s : ChatSession) : Prop :=
  currentSession st = Some s \/ exists key, sessions st !! key = Some s.

Definition request_holds (r : Request) (s : ChatSession) : Prop :=
  s = req_currentSession r \/ s = req_updatedSession r.

Definition runtime_ok (t : instant) (rt : Runtime) : Prop :=
  forall s, holds rt s -> session_ok t s.

(** A clock that never runs backwards: every reading is at least the one
    before it, starting from [t]. *)
Fixpoint monotone_from (t : instant) (rs : list instant) : Prop :=
  match rs with
  | [] => True
  | r :: rest => t <= r /\ monotone_from r rest
  end.

Definition clock (events : list Event) : list instant := flat_map readings events.

(** ** RelevanceRanker: the ordering

    The sources hold the score ([calculate_memory_relevance]) and no
    code that orders memories by it. *)

Section Ranker.

Context {F : Type} (A : Arith F) (relevance : Memory F -> F).

(** Modelled from the spec: the comparison behind the ranker's ordering,
    which is missing from the sources.  Section 4.1: memories are ordered
    by score, highest first, "ties broken by created_at descending (newer
    wins), then by id for determinism".  Two scores tie when neither is
    less than the other. *)
Definition ranks_before (a b : Memory F) : bool :=
  if flt A (relevance b) (relevance a) then true
  else if flt A (relevance a) (relevance b) then false
  else if mem_created_at b <? mem_created_at a then true
  else if mem_created_at a <? mem_created_at b then false
  else mem_id a <=? mem_id b.

Fixpoint insert_ranked (m : Memory F) (ranked : list (Memory F)) : list (Memory F) :=
  match ranked with
  | [] => [m]
  | x :: rest =>
      if ranks_before m x then m :: x :: rest
      else x :: insert_ranked m rest
  end.

Definition rank_by (memories : list (Memory F)) : list (Memory F) :=
  fold_right insert_ranked [] memories.

End Ranker.

(** Modelled from the spec: the ranker's ordering of a set of memories
    for a query at a time, missing from the sources; an insertion sort by
    [ranks_before] on the score of [calculate_memory_relevance]. *)
Definition rank {F} (A : Arith F) (B : Backend F)
  (memories : list (Memory F)) (query : string) (now : datetime) : list (Memory F) :=
  rank_by A (fun m => score A B m query now) memories.

Definition outranks {F} (A : Arith F) (relevance : Memory F -> F)
  (a b : Memory F) : Prop :=
  ranks_before A relevance a b = true.

(** [<] orders the given scores consistently: it is irreflexive and
    transitive on them, and so is "not less than".  Real numbers always
    are; doubles are unless one of them is a NaN. *)
Definition consistent_order {F} (A : Arith F) (scores : list F) : Prop :=
  forall a b c, In a scores -> In b scores -> In c scores ->
    flt A a a = false
    /\ (flt A a b = true -> flt A b c = true -> flt A a c = true)
    /\ (flt A a b = false -> flt A b c = false -> flt A a c = false).

(** The memories whose score is among the given ones. *)
Definition known {F} (relevance : Memory F -> F) (scores : list F) (m : Memory F) : Prop :=
  In (relevance m) scores.

(** [a] comes before [b] in [l]. *)
Definition precedes {X} (a b : X) (l : list X) : Prop :=
  exists l1 l2 l3, l = l1 ++ a :: l2 ++ b :: l3.

(** ** The session record of the specification (section 3) *)

Record Session : Type := MkSession {
  ses_id : string;
  ses_user_id : string;
  ses_character_name : string;
  ses_started_at : datetime;
  ses_ended_at : option datetime;         (* None = open *)
  ses_message_count : Z;
  ses_working_memory : string;
  ses_final_summary : option string;
  ses_messages : list Message;
  ses_lastSummarizedAt : Z
}.

(** ** ExtractionPipeline

    The sources hold the fact extraction prompt and the pipeline
    diagram, not the code that writes Memory rows. *)

Record Exchange : Type := MkExchange {
  ex_source_message_id : string;
  ex_user_message : string;
  ex_assistant_message : string
}.

(** One entry of the JSON array the fact extraction prompt asks for. *)
Record ExtractedFact : Type := MkFact {
  fact_kind : MemoryType;
  fact_content : string;
  fact_importance : Z            (* 1-10 *)
}.

Section Extraction.

Context {F : Type} (A : Arith F) (B : Backend F).
(* the language model behind the fact extraction prompt *)
Context (extract_facts : Exchange -> list ExtractedFact).
Context (content_hash : string -> Z).

Definition dedup_key (m : Memory F) : string * Z :=
  (mem_source_message_id m, content_hash (mem_content m)).

Definition same_key (a b : Memory F) : bool :=
  bool_decide (dedup_key a = dedup_key b).

Definition has_key (rows : list (Memory F)) (k : string * Z) : Prop :=
  In k (map dedup_key rows).

Definition next_id (rows : list (Memory F)) : Z :=
  1 + fold_right Z.max 0 (map mem_id rows).

Definition new_memory (session : Session) (exchange : Exchange) (now : datetime)
  (id : Z) (f : ExtractedFact) : Memory F :=
  {| mem_id := id;
     mem_user_id := ses_user_id session;
     mem_character_name := ses_character_name session;
     mem_type := fact_kind f;
     mem_content := fact_content f;
     mem_embedding := embed B (fact_content f);
     mem_importance := fdiv A (of_int A (fact_importance f)) (of_int A 10);
     mem_access_count := 0;
     mem_last_accessed := now;
     mem_created_at := now;
     mem_source_session_id := ses_id session;
     mem_source_message_id := ex_source_message_id exchange |}.

(** The key of the row a fact of this exchange would become. *)
Definition fact_key (exchange : Exchange) (f : ExtractedFact) : string * Z :=
  (ex_source_message_id exchange, content_hash (fact_content f)).

(** Modelled from the spec: the write of one extracted fact, missing
    from the sources.  Section 4.4: "implementations key deduplication on
    (source_message_id, content_hash)"; a fact whose key is already in the
    collection is skipped.  The state is the Memory collection together
    with the rows this run has created. *)
Definition persist (session : Session) (exchange : Exchange) (now : datetime)
  (state : list (Memory F) * list (Memory F)) (f : ExtractedFact)
  : list (Memory F) * list (Memory F) :=
  let (rows, newMemories) := state in
  let candidate := new_memory session exchange now (next_id rows) f in
  if existsb (same_key candidate) rows then state
  else (rows ++ [candidate], newMemories ++ [candidate]).

(** Modelled from the spec: [extract(session, latest_exchange)], missing
    from the sources.  Section 4.4: it runs once per completed exchange,
    normalises the 1-10 importance to [0,1] and writes the Memory rows of
    the exchange.  The result is the Memory collection after the run and
    [newMemories]. *)
Definition extract (rows : list (Memory F)) (session : Session)
  (exchange : Exchange) (now : datetime) : list (Memory F) * list (Memory F) :=
  fold_left (persist session exchange now) (extract_facts exchange) (rows, []).

End Extraction.

(** ** WorkingMemorySummarizer

    The sources hold the prompt of the working memory update, not the
    code of [maybeUpdate]. *)

Definition newline : string := String (ascii_of_nat 10) EmptyString.

(** The prompt of the sources ("Working Memory Update (Every 5
    messages)"), with its two placeholders as arguments. *)
Definition working_memory_prompt (working_memory last_5_messages : string) : string :=
  "Previous summary: " +:+ working_memory +:+ newline +:+
  "New messages: " +:+ last_5_messages +:+ newline +:+
  newline +:+
  "Update the summary to include new important information." +:+ newline +:+
  "Keep it under 100 words. Focus on:" +:+ newline +:+
  "- Main topics discussed" +:+ newline +:+
  "- User's emotional state" +:+ newline +:+
  "- Unresolved questions" +:+ newline +:+
  "- Key decisions or revelations".

(** The first [n] words of a string. *)
Fixpoint first_words_from (in_word : bool) (n : nat) (s : string) : string :=
  match s with
  | EmptyString => EmptyString
  | String c rest =>
      if Ascii.eqb c " "%char then String c (first_words_from false n rest)
      else if in_word then String c (first_words_from true n rest)
      else match n with
           | O => EmptyString
           | S n' => String c (first_words_from true n' rest)
           end
  end.

Definition first_words (n : nat) (s : string) : string := first_words_from false n s.

Definition last_n {X} (n : nat) (l : list X) : list X :=
  skipn (length l - n)%nat l.

Section Summarizer.

(* the language model behind the prompt, and the rendering of messages *)
Context (summarize : string -> string).
Context (render_messages : list Message -> string).

(** Modelled from the spec: [maybeUpdate(session)], missing from the
    sources.  Section 4.3: it "no-ops unless message_count -
    lastSummarizedAt >= 5" and otherwise "produces a new working-memory
    string bounded to ~100 words ... folding in the previous working
    memory rather than re-summarizing the whole transcript".  The new
    string is the language model's reply to the prompt of the sources,
    filled with the previous working memory and the last five messages;
    the bound is kept by cutting the reply after its first 100 words. *)
Definition maybeUpdate (session : Session) : Session :=
  if ses_message_count session - ses_lastSummarizedAt session <? 5 then session
  else
    let prompt :=
      working_memory_prompt (ses_working_memory session)
        (render_messages (last_n 5 (ses_messages session))) in
    {| ses_id := ses_id session;
       ses_user_id := ses_user_id session;
       ses_character_name := ses_character_name session;
       ses_started_at := ses_started_at session;
       ses_ended_at := ses_ended_at session;
       ses_message_count := ses_message_count session;
       ses_working_memory := first_words 100 (summarize prompt);
       ses_final_summary := ses_final_summary session;
       ses_messages := ses_messages session;
       ses_lastSummarizedAt := ses_message_count session |}.

End Summarizer.

(** ** Concrete inputs used by the examples *)

(** A stand-in for the platform's [pow] at the two exponents the
    examples use: [pow(x, 0) = 1] for every [x] (C standard, annex F) and
    [pow(x, 1) = x]. *)
Definition example_pow (x y : float) : float :=
  if PrimFloat.eqb y 0 then 1%float
  else if PrimFloat.eqb y 1 then x
  else PrimFloat.nan.

Definition dot (a b : list float) : float :=
  fold_right PrimFloat.add 0%float (zip_with PrimFloat.mul a b).

(** Every text is embedded as the same unit vector; similarity is the
    cosine of the angle. *)
Definition unit_backend : Backend float :=
  {| embed := fun _ => [1%float];
     cosine_similarity := fun a b =>
       PrimFloat.div (dot a b)
         (PrimFloat.mul (PrimFloat.sqrt (dot a a)) (PrimFloat.sqrt (dot b b))) |}.

(** 2024-01-01T00:00:00Z in microseconds. *)
Definition new_year_2024 : datetime := 1704067200 * 1000000.

(** A memory of the highest importance, read ten times, last read at the
    moment of the query. *)
Definition frequent_memory : Memory float :=
  {| mem_id := 1;
     mem_user_id := "u1";
     mem_character_name := "Batman";
     mem_type := fact;
     mem_content := "User's name is Sarah";
     mem_embedding := [1%float];
     mem_importance := 1%float;
     mem_access_count := 10;
     mem_last_accessed := new_year_2024;
     mem_created_at := new_year_2024;
     mem_source_session_id := "s1";
     mem_source_message_id := "m1" |}.

Definition half_backend : Backend R :=
  {| embed := fun _ => [1%R];
     cosine_similarity := fun _ _ => (1 / 2)%R |}.

Definition week_old_memory : Memory R :=
  {| mem_id := 2;
     mem_user_id := "u1";
     mem_character_name := "Batman";
     mem_type := preference;
     mem_content := "User prefers detailed answers";
     mem_embedding := [1%R];
     mem_importance := (7 / 10)%R;
     mem_access_count := 3;
     mem_last_accessed := new_year_2024 - 7 * microseconds_per_day;
     mem_created_at := new_year_2024 - 30 * microseconds_per_day;
     mem_source_session_id := "s1";
     mem_source_message_id := "m2" |}.

(** The two optional entries of the assembled list. *)
Definition episodic_part {F} (svc : Stores F) (user_id character : string)
  : list ContextSection :=
  match truthy (get_last_session_summary svc user_id character) with
  | Some summary => [MkSection EpisodicMemory ("Last conversation: " +:+ summary)]
  | None => []
  end.

Definition working_part {F} (svc : Stores F) (session : ActiveSession)
  : list ContextSection :=
  if 10 <? session_message_count session
  then [MkSection WorkingMemory
          ("Conversation so far: " +:+ get_working_memory svc (session_id session))]
  else [].

(** The raw-buffer capacity of the scenario in section 8 of the
    specification. *)
Definition scenario_buffer_capacity : Z := 15.

(** A character profile of 4001 words. *)
Definition overlong_profile : string := repeat_string 4001 "a ".

Definition verbose_stores : Stores float :=
  {| get_character_profile := fun _ => overlong_profile;
     get_user_entities := fun _ _ => [];
     format_user_profile := fun _ => "User profile: nothing known yet";
     get_last_session_summary := fun _ _ => None;
     semantic_search := fun _ _ _ _ => [];
     format_memories := fun _ => "Relevant memories: none";
     get_working_memory := fun _ => "User has been asking about Gotham.";
     get_recent_messages := fun _ _ => [];
     format_messages := fun _ => "" |}.

Definition two_messages : list Message :=
  [ {| msg_role := role_user;
       msg_content := "What drives you to fight crime in Gotham";
       msg_timestamp := new_year_2024;
       msg_tokens := 8 |};
    {| msg_role := role_assistant;
       msg_content := "The night my parents died";
       msg_timestamp := new_year_2024 + 1000000;
       msg_tokens := 5 |} ].

(** A small memory service: short texts, and a buffer that is returned
    whole when it fits and left out otherwise. *)
Definition modest_stores : Stores float :=
  {| get_character_profile := fun _ => "You are Batman, the Dark Knight of Gotham.";
     get_user_entities := fun _ _ => [];
     format_user_profile := fun _ => "User profile: nothing known yet";
     get_last_session_summary := fun _ _ => Some "talked about Alfred";
     semantic_search := fun _ _ _ _ => [frequent_memory];
     format_memories := fun ms => "Relevant memories: " +:+
       fold_right (fun m acc => mem_content m +:+ " " +:+ acc) "" ms;
     get_working_memory := fun _ => "User has been asking about Gotham.";
     get_recent_messages := fun _ max_tokens =>
       if 13 <=? max_tokens then two_messages else [];
     format_messages := fun ms =>
       fold_right (fun m acc => msg_content m +:+ " " +:+ acc) "" ms |}.

(** Twelve messages into a session, and twenty. *)
Definition session_of_12 : ActiveSession :=
  {| session_id := "s1"; session_message_count := 12 |}.

Definition session_of_20 : ActiveSession :=
  {| session_id := "s1"; session_message_count := 20 |}.

(** A first exchange with Batman in an empty store: the character is
    chosen, a message is sent, the reply streams in two chunks. *)
Definition batman : Character :=
  {| name := "Batman";
     description := "The Dark Knight of Gotham";
     powers := ["Martial arts"; "Detective skills"];
     story_arcs := ["Year One"];
     avatar := "/avatars/batman.png";
     relationships := [("Alfred", family); ("Joker", enemy)] |}.

Definition empty_runtime : Runtime :=
  {| store := initial_state; pending := [] |}.

Definition first_exchange : list Event :=
  [ SetCharacter batman "session_1704067200000_k3j9x2m1q" 1704067200000;
    SendMessage "What drives you to fight crime?" 1704067205000 1704067205000;
    StreamStatus 0 "Starting conversation...";
    StreamChunk 0 "The night ";
    StreamChunk 0 "my parents died.";
    StreamDone 0 (MkDone (Some "srv-42") (Some 3) (Some 512)) 1704067207500 1704067207501 ].

(** Two memories that differ in their identifier and in the day they
    were created, and in nothing the score depends on. *)
Definition older_memory : Memory R :=
  {| mem_id := 3;
     mem_user_id := "u1";
     mem_character_name := "Batman";
     mem_type := fact;
     mem_content := "User is a teacher";
     mem_embedding := [1%R];
     mem_importance := (1 / 2)%R;
     mem_access_count := 4;
     mem_last_accessed := new_year_2024;
     mem_created_at := new_year_2024 - 2 * microseconds_per_day;
     mem_source_session_id := "s1";
     mem_source_message_id := "m3" |}.

Definition newer_memory : Memory R :=
  {| mem_id := 4;
     mem_user_id := "u1";
     mem_character_name := "Batman";
     mem_type := fact;
     mem_content := "User is a teacher";
     mem_embedding := [1%R];
     mem_importance := (1 / 2)%R;
     mem_access_count := 4;
     mem_last_accessed := new_year_2024;
     mem_created_at := new_year_2024 - 1 * microseconds_per_day;
     mem_source_session_id := "s1";
     mem_source_message_id := "m4" |}.

(** The same pair in binary64. *)
Definition older_memory64 : Memory float :=
  {| mem_id := 3;
     mem_user_id := "u1";
     mem_character_name := "Batman";
     mem_type := fact;
     mem_content := "User is a teacher";
     mem_embedding := [1%float];
     mem_importance := 0.5%float;
     mem_access_count := 4;
     mem_last_accessed := new_year_2024;
     mem_created_at := new_year_2024 - 2 * microseconds_per_day;
     mem_source_session_id := "s1";
     mem_source_message_id := "m3" |}.

Definition newer_memory64 : Memory float :=
  {| mem_id := 4;
     mem_user_id := "u1";
     mem_character_name := "Batman";
     mem_type := fact;
     mem_content := "User is a teacher";
     mem_embedding := [1%float];
     mem_importance := 0.5%float;
     mem_access_count := 4;
     mem_last_accessed := new_year_2024;
     mem_created_at := new_year_2024 - 1 * microseconds_per_day;
     mem_source_session_id := "s1";
     mem_source_message_id := "m4" |}.

(** One exchange and what the fact extraction returns for it: two facts,
    one of them stated twice. *)
Definition sarah_exchange : Exchange :=
  {| ex_source_message_id := "m7";
     ex_user_message := "I'm Sarah, I teach maths. Did I say I'm a teacher?";
     ex_assistant_message := "You did, Sarah." |}.

Definition sarah_facts (e : Exchange) : list ExtractedFact :=
  [ MkFact fact "User's name is Sarah" 8;
    MkFact fact "User is a teacher" 6;
    MkFact fact "User is a teacher" 6 ].

(** A toy content hash: the length of the text. *)
Definition length_hash (s : string) : Z := Z.of_nat (String.length s).

Definition gotham_session : Session :=
  {| ses_id := "s1";
     ses_user_id := "u1";
     ses_character_name := "Batman";
     ses_started_at := new_year_2024;
     ses_ended_at := None;
     ses_message_count := 5;
     ses_working_memory := "";
     ses_final_summary := None;
     ses_messages := two_messages;
     ses_lastSummarizedAt := 0 |}.

(** A summariser that answers every prompt with the same sentence. *)
Definition canned_summary (prompt : string) : string :=
  "User has been asking about Batman's childhood.".

Definition render_plain (ms : list Message) : string :=
  fold_right (fun m acc => msg_content m +:+ newline +:+ acc) "" ms.

(** ** The chat store: the remaining actions and what they touch *)

Record SessionStats : Type := MkStats {
  stat_memories : Z;
  stat_tokens : Z;
  stat_messages : Z
}.

(** [getSessionStats]: each field is [session?.field || 0]. *)
Definition getSessionStats (characterId : string) (st : ChatState) : SessionStats :=
  let session := sessions st !! characterId in
  {| stat_memories := or_number (memoriesUsed <$> session) 0;
     stat_tokens := or_number (tokensUsed <$> session) 0;
     stat_messages := or_number ((fun s => Z.of_nat (length (messages s))) <$> session) 0 |}.

(** [setError] and [clearError]. *)
Definition setError (err : option string) (st : ChatState) : ChatState :=
  set_ui (isTyping st) (streamingContent st) (statusMessage st) err st.

Definition clearError (st : ChatState) : ChatState := setError None st.

(** [Array.prototype.sort] with the comparator of [getRecentChats],
    [(a, b) => time(b.lastActivity) - time(a.lastActivity)]: a stable
    sort, the later activity first. *)
Fixpoint insert_by_activity (a : ChatSession) (sorted : list ChatSession)
  : list ChatSession :=
  match sorted with
  | [] => [a]
  | b :: rest =>
      if lastActivity b - lastActivity a <=? 0 then a :: b :: rest
      else b :: insert_by_activity a rest
  end.

Definition sort_by_activity (l : list ChatSession) : list ChatSession :=
  fold_right insert_by_activity [] l.

Definition has_messages (s : ChatSession) : bool :=
  (0 <? Z.of_nat (length (messages s))).

(** [getRecentChats] on the array [Object.values(sessions)]. *)
Definition recent_of (values : list ChatSession) : list ChatSession :=
  firstn 10 (sort_by_activity (List.filter has_messages values)).

(** [getRecentChats].  JavaScript enumerates the values in the order the
    keys were inserted; the finite map enumerates them in an order of its
    own.  The order matters only among sessions of equal [lastActivity]. *)
Definition getRecentChats (st : ChatState) : list ChatSession :=
  recent_of (map snd (map_to_list (sessions st))).

(** The session key an event writes to, if any. *)
Definition touched_key (rt : Runtime) (e : Event) : option string :=
  match e with
  | SetCharacter c _ _ => Some (name c)
  | LoadCharacterSession cid _ _ => Some cid
  | SendMessage _ _ _ | ClearCurrentChat _ =>
      characterId <$> currentSession (store rt)
  | StreamDone i _ _ _ =>
      (fun r => characterId (req_currentSession r)) <$> pending rt !! i
  | StreamChunk _ _ | StreamStatus _ _ | StreamError _ => None
  end.

(** The key an event looks up in [sessions], if any. *)
Definition loaded_key (e : Event) : option string :=
  match e with
  | SetCharacter c _ _ => Some (name c)
  | LoadCharacterSession cid _ _ => Some cid
  | _ => None
  end.

(** An event that loads no [inherited] name. *)
Definition ordinary (e : Event) : bool :=
  match loaded_key e with
  | Some key => negb (inherited key)
  | None => true
  end.

(** Sessions are filed under their own [characterId], the current
    session is the one filed under its [characterId], and the session a
    request took along has the key of the one it started from. *)
Definition keyed (rt : Runtime) : Prop :=
  (forall key s, sessions (store rt) !! key = Some s -> characterId s = key)
  /\ (forall s, currentSession (store rt) = Some s ->
        sessions (store rt) !! characterId s = Some s)
  /\ (forall r, In r (pending rt) ->
        characterId (req_updatedSession r) = characterId (req_currentSession r)).

(** ** JavaScript strings

    A JavaScript string is a sequence of UTF-16 code units, and [length]
    and [substring] count code units.  The texts of the model are
    sequences of bytes, the UTF-8 encoding of the text.  [utf16] reads
    the code units off the bytes: one for a character of up to three
    bytes, a surrogate pair for one of four.  A byte that is no part of
    a well-formed sequence stands for no text; it is read as U+FFFD. *)

Definition code_unit := N.

Definition replacement_character : code_unit := 65533%N.

(** The six payload bits of a continuation byte [10xxxxxx]. *)
Definition continuation (b : ascii) : option N :=
  let n := N_of_ascii b in
  if (128 <=? n)%N && (n <? 192)%N then Some (n - 128)%N else None.

Definition units_of_code_point (cp : N) : list code_unit :=
  if (cp <? 65536)%N then [cp]
  else [ (55296 + (cp - 65536) / 1024)%N; (56320 + (cp - 65536) mod 1024)%N ].

Fixpoint utf16 (s : string) : list code_unit :=
  match s with
  | EmptyString => []
  | String b0 rest =>
      let n0 := N_of_ascii b0 in
      if (n0 <? 128)%N then n0 :: utf16 rest
      else if (194 <=? n0)%N && (n0 <? 224)%N then
        match rest with
        | String b1 rest1 =>
            match continuation b1 with
            | Some c1 => units_of_code_point ((n0 - 192) * 64 + c1)%N ++ utf16 rest1
            | None => replacement_character :: utf16 rest
            end
        | EmptyString => replacement_character :: utf16 rest
        end
      else if (224 <=? n0)%N && (n0 <? 240)%N then
        match rest with
        | String b1 (String b2 rest2) =>
            match continuation b1, continuation b2 with
            | Some c1, Some c2 =>
                units_of_code_point (((n0 - 224) * 64 + c1) * 64 + c2)%N ++ utf16 rest2
            | _, _ => replacement_character :: utf16 rest
            end
        | _ => replacement_character :: utf16 rest
        end
      else if (240 <=? n0)%N && (n0 <? 245)%N then
        match rest with
        | String b1 (String b2 (String b3 rest3)) =>
            match continuation b1, continuation b2, continuation b3 with
            | Some c1, Some c2, Some c3 =>
                units_of_code_point ((((n0 - 240) * 64 + c1) * 64 + c2) * 64 + c3)%N
                ++ utf16 rest3
            | _, _, _ => replacement_character :: utf16 rest
            end
        | _ => replacement_character :: utf16 rest
        end
      else replacement_character :: utf16 rest
  end.

(** What the recent characters panel shows of a session
    ([recent-characters.tsx]): the last message, cut to 50 code units.
    The preview is kept as code units, since the cut may fall inside a
    surrogate pair. *)
Record RecentCharacter : Type := MkRecent {
  rc_name : string;
  rc_lastMessage : list code_unit;
  rc_lastActivity : instant;
  rc_messageCount : Z
}.

(** [lastMessage?.content.substring(0, 50) + (lastMessage?.content.length
    > 50 ? "..." : "")]; with no last message the left operand is
    [undefined], which [+] renders as the text "undefined". *)
Definition preview (lastMessage : option ChatMessage) : list code_unit :=
  match lastMessage with
  | Some m =>
      firstn 50 (utf16 (content m)) ++
      (if (50 <? length (utf16 (content m)))%nat then utf16 "..." else [])
  | None => utf16 "undefined"
  end.

Definition recent_character (session : ChatSession) : RecentCharacter :=
  let lastMessage := last (messages session) in
  {| rc_name := characterName session;
     rc_lastMessage := preview lastMessage;
     rc_lastActivity := lastActivity session;
     rc_messageCount := Z.of_nat (length (messages session)) |}.

(** The order of [getRecentChats]: the later activity first. *)
Definition later_first (x y : ChatSession) : Prop := lastActivity y <= lastActivity x.

(** ** The chat store used one reply at a time

    The chat page's [handleSend] returns at once while [isTyping] is
    set.  A trace keeps to that discipline when messages are sent and
    characters selected only while no reply is awaited, the chat is not
    cleared, and the callbacks that arrive are those of the request sent
    last, while its reply is awaited. *)
Definition in_turn (rt : Runtime) (e : Event) : bool :=
  match e with
  | SendMessage _ _ _ | SetCharacter _ _ _ | LoadCharacterSession _ _ _ =>
      negb (isTyping (store rt))
  | ClearCurrentChat _ => false
  | StreamChunk i _ | StreamStatus i _ | StreamDone i _ _ _ | StreamError i =>
      isTyping (store rt) && bool_decide (S i = length (pending rt))
  end.

Fixpoint one_at_a_time (rt : Runtime) (events : list Event) : bool :=
  match events with
  | [] => true
  | e :: rest => in_turn rt e && one_at_a_time (step rt e) rest
  end.

(** While a reply is awaited, the session its request took along is the
    stored one. *)
Definition awaited_is_stored (rt : Runtime) : Prop :=
  isTyping (store rt) = true ->
  exists r, last (pending rt) = Some r
    /\ sessions (store rt) !! characterId (req_currentSession r)
       = Some (req_updatedSession r).

(** ** [api.streamChat]: reading the event stream

    The response body arrives in pieces; [TextDecoder] in streaming mode
    turns them into pieces of text whose concatenation is the decoded
    stream.  The reader keeps the text after the last line feed in
    [buffer] and handles every complete line. *)

Definition LF : ascii := ascii_of_nat 10.

(** [s.split("\n")]: never empty; one more piece than line feeds. *)
Fixpoint split_lines (s : string) : list string :=
  match s with
  | EmptyString => [EmptyString]
  | String c rest =>
      if Ascii.eqb c LF then EmptyString :: split_lines rest
      else match split_lines rest with
           | piece :: pieces => String c piece :: pieces
           | [] => [String c EmptyString]
           end
  end.

(** The parsed JSON of a [data: ] line, as far as the reader looks at
    it; every field may be missing. *)
Record SseData : Type := MkSseData {
  sse_type : option string;
  sse_message : option string;
  sse_status : option string;
  sse_content : option string;
  sse_session_id : option string;
  sse_memories_used : option Z;
  sse_tokens_used : option Z
}.

(** A call of one of the callbacks handed to [streamChat].  A missing
    field is passed on as [undefined]. *)
Inductive Callback :=
| CallChunk (chunk : option string)
| CallStatus (status : option string)
| CallDone (done : DonePayload)
| CallError.

(** Which of the optional callbacks the caller handed over. *)
Record Handlers : Type := MkHandlers {
  onStatus_given : bool;
  onDone_given : bool;
  onError_given : bool
}.

(** The chat store hands over all of them. *)
Definition store_handlers : Handlers := MkHandlers true true true.

(** [a || b] on two optional strings. *)
Definition or_else (a b : option string) : option string :=
  match truthy a with
  | Some s => Some s
  | None => b
  end.

Definition type_is (data : SseData) (t : string) : bool :=
  bool_decide (sse_type data = Some t).

Section StreamChat.

Context (handlers : Handlers).
(* [JSON.parse]; [None] when it throws *)
Context (json_parse : string -> option SseData).

(** The body of the [try] for one parsed line.  The [throw] of the
    "error" branch is caught by the [catch] of the same [try], which only
    logs: no callback is called. *)
Definition dispatch (data : SseData) : list Callback :=
  if type_is data "status" && onStatus_given handlers
  then [CallStatus (or_else (sse_message data) (sse_status data))]
  else if type_is data "chunk" then [CallChunk (sse_content data)]
  else if type_is data "start"
  then (if onStatus_given handlers
        then [CallStatus (Some "Starting conversation...")] else [])
  else if type_is data "done" && onDone_given handlers
  then [CallDone (MkDone (sse_session_id data) (sse_memories_used data)
                    (sse_tokens_used data))]
  else if type_is data "error" then []
  else [].

(** One line: [if (line.startsWith("data: ")) { try { ...
    JSON.parse(line.slice(6)) ... } catch { warn } }]. *)
Definition on_line (line : string) : list Callback :=
  if String.prefix "data: " line then
    match json_parse (substring 6 (String.length line - 6) line) with
    | Some data => dispatch data
    | None => []
    end
  else [].

(** One turn of the read loop: [buffer += value; lines =
    buffer.split("\n"); buffer = lines.pop() || ""], then the lines in
    order.  The result is the new buffer and the callbacks called. *)
Definition read_value (buffer value : string) : string * list Callback :=
  let buffer := buffer +:+ value in
  let lines := split_lines buffer in
  (or_string (last lines) "", flat_map on_line (removelast lines)).

(** The read loop over the pieces of a body, until [done]. *)
Fixpoint read_loop (buffer : string) (values : list string) : string * list Callback :=
  match values with
  | [] => (buffer, [])
  | value :: rest =>
      let (buffer, called) := read_value buffer value in
      let (final, later) := read_loop buffer rest in
      (final, called ++ later)
  end.

(** How a request can go. *)
Inductive Outcome :=
| FetchRejected (aborted : bool)          (* [fetch] rejects *)
| ResponseNotOk                           (* [!response.ok] *)
| NoReadableStream                        (* no [response.body] *)
| Body (values : list string) (failure : option bool).
    (* the pieces read; [Some aborted] when a read rejects after them *)

(** The [catch] at the end of the chain. *)
Definition on_failure (aborted : bool) : list Callback :=
  if negb aborted && onError_given handlers then [CallError] else [].

(** All callbacks of one call of [streamChat], in order. *)
Definition streamChat (outcome : Outcome) : list Callback :=
  match outcome with
  | FetchRejected aborted => on_failure aborted
  | ResponseNotOk => on_failure false
  | NoReadableStream => on_failure false
  | Body values failure =>
      snd (read_loop "" values) ++
      match failure with
      | Some aborted => on_failure aborted
      | None => []
      end
  end.

End StreamChat.

(** The events that only report progress of a reply. *)
Definition reports_progress (e : Event) : bool :=
  match e with
  | StreamChunk _ _ | StreamStatus _ _ => true
  | _ => false
  end.

(** ** [formatRelativeTime] of the utilities

    The label the chat shows beside a message.  [now] is the clock
    reading of [new Date()], [past] the argument as [new Date(date)]
    reads it: [None] for a text that is no date, whose [getTime()] is
    NaN, so that every [<] of the function is false.  The date of the
    last branch is rendered by the platform's [toLocaleDateString]. *)
Definition formatRelativeTime (toLocaleDateString : option instant -> string)
  (now : instant) (past : option instant) : string :=
  match past with
  | Some past_time =>
      let diffMs := now - past_time in
      let diffSec := diffMs / 1000 in
      let diffMin := diffSec / 60 in
      let diffHour := diffMin / 60 in
      let diffDay := diffHour / 24 in
      if diffSec <? 60 then "just now"
      else if diffMin <? 60 then pretty diffMin +:+ "m ago"
      else if diffHour <? 24 then pretty diffHour +:+ "h ago"
      else if diffDay <? 7 then pretty diffDay +:+ "d ago"
      else toLocaleDateString past
  | None => toLocaleDateString past
  end.

(** ** Further concrete inputs *)

(** The store after Batman was selected for the first time. *)
Definition batman_session : ChatSession :=
  {| characterId := "Batman";
     characterName := "Batman";
     sessionId := "session_1704067200000_k3j9x2m1q";
     messages := [];
     lastActivity := 1704067200000;
     memoriesUsed := 0;
     tokensUsed := 0;
     isNewSession := true |}.

Definition batman_selected : Runtime :=
  run empty_runtime [SetCharacter batman "session_1704067200000_k3j9x2m1q" 1704067200000].

Definition alfred : Character :=
  {| name := "Alfred";
     description := "The butler of Wayne Manor";
     powers := [];
     story_arcs := [];
     avatar := "/avatars/alfred.png";
     relationships := [("Batman", family)] |}.

(** The session the first exchange leaves in the store. *)
Definition batman_after_first_exchange : ChatSession :=
  {| characterId := "Batman";
     characterName := "Batman";
     sessionId := "srv-42";
     messages :=
       [ MkChatMessage "What drives you to fight crime?" role_user
           1704067205000 (Some "Batman");
         MkChatMessage "The night my parents died." role_assistant
           1704067207500 (Some "Batman") ];
     lastActivity := 1704067207501;
     memoriesUsed := 3;
     tokensUsed := 512;
     isNewSession := false |}.

(** An exchange during which the clock is set back by a second: the
    reply is stamped earlier than the message it answers. *)
Definition clock_set_back : list Event :=
  [ SetCharacter batman "session_1704067200000_k3j9x2m1q" 1704067200000;
    SendMessage "What drives you to fight crime?" 1704067205000 1704067205000;
    StreamChunk 0 "The night my parents died.";
    StreamDone 0 (MkDone (Some "srv-42") (Some 3) (Some 512)) 1704067204000 1704067204000 ].

(** Thirty times the letter e with an acute accent, two bytes each. *)
Definition accented_text : string :=
  repeat_string 30 (String (ascii_of_nat 195) (String (ascii_of_nat 169) EmptyString)).

(** The memory of [week_old_memory], rated higher and read more often. *)
Definition often_read_memory : Memory R :=
  {| mem_id := 5;
     mem_user_id := "u1";
     mem_character_name := "Batman";
     mem_type := preference;
     mem_content := "User prefers detailed answers";
     mem_embedding := [1%R];
     mem_importance := (9 / 10)%R;
     mem_access_count := 12;
     mem_last_accessed := new_year_2024 - 7 * microseconds_per_day;
     mem_created_at := new_year_2024 - 30 * microseconds_per_day;
     mem_source_session_id := "s1";
     mem_source_message_id := "m2" |}.

(** A memory whose [last_accessed] was written by a clock two days
    ahead. *)
Definition postdated_memory : Memory R :=
  {| mem_id := 6;
     mem_user_id := "u1";
     mem_character_name := "Batman";
     mem_type := fact;
     mem_content := "User has a sister named Sarah";
     mem_embedding := [1%R];
     mem_importance := 1%R;
     mem_access_count := 10;
     mem_last_accessed := new_year_2024 + 2 * microseconds_per_day;
     mem_created_at := new_year_2024;
     mem_source_session_id := "s1";
     mem_source_message_id := "m3" |}.

(* ===================================================================== *)
(** * Part II. Theorems *)
(* ===================================================================== *)

(** ** The relevance score *)

Lemma SFmul_comm prec emax x y :
  SpecFloat.SFmul prec emax x y = SpecFloat.SFmul prec emax y x.
Proof.
  destruct x as [sx|sx| |sx mx ex], y as [sy|sy| |sy my ey]; simpl;
    try reflexivity; try (rewrite (xorb_comm sx sy); reflexivity).
  rewrite (xorb_comm sx sy), (Pos.mul_comm mx my), (Z.add_comm ex ey).
  reflexivity.
Qed.

(** The literals of the listing, read as Python reads them. *)
Example float_literals :
  float_of_Q 0.4 = 0x1.999999999999ap-2%float
  /\ float_of_Q 0.2 = 0x1.999999999999ap-3%float
  /\ float_of_Q 0.3 = 0x1.3333333333333p-2%float
  /\ float_of_Q 0.1 = 0x1.999999999999ap-4%float
  /\ float_of_Q 0.5 = 0x1p-1%float
  /\ float_of_Q 1 = 0x1p+0%float.
Proof. vm_compute. repeat split; reflexivity. Qed.

Lemma float_mul_comm (x y : float) : PrimFloat.mul x y = PrimFloat.mul y x.
Proof.
  apply FloatAxioms.Prim2SF_inj. rewrite !FloatAxioms.mul_spec. apply SFmul_comm.
Qed.

Section RelevanceFacts.

Context {F : Type} (A : Arith F) (B : Backend F).

Lemma score_unfold (m : Memory F) query now :
  score A B m query now =
  fadd A (fadd A (fadd A
    (fmul A (cosine_similarity B (embed B (mem_content m)) (embed B query)) (lit A 0.4))
    (fmul A (fpow A (lit A 0.5)
               (fdiv A (of_int A (days (now - mem_last_accessed m))) (of_int A 7)))
            (lit A 0.2)))
    (fmul A (mem_importance m) (lit A 0.3)))
    (fmul A (py_min A (fdiv A (of_int A (mem_access_count m)) (of_int A 10)) (lit A 1))
            (lit A 0.1)).
Proof. reflexivity. Qed.

Lemma score_is_spec_score :
  (forall x y, fmul A x y = fmul A y x) ->
  forall (m : Memory F) query now, score A B m query now = spec_score A B m query now.
Proof.
  intros Hcomm m query now. rewrite score_unfold.
  unfold spec_score, spec_recency, spec_frequency.
  now rewrite !(Hcomm (lit A _)).
Qed.

End RelevanceFacts.

(** C2.  The value [calculate_memory_relevance] returns is the formula
    of the specification: 0.4 * semantic + 0.2 * recency + 0.3 *
    importance + 0.1 * frequency, with recency = 0.5 ^ (age_days / 7),
    age_days the whole days from last_accessed to now, and frequency =
    min(access_count / 10, 1.0).  It holds in the binary64 arithmetic
    Python computes in, whatever the platform's [pow], and in real
    arithmetic. *)
Theorem relevance_score_formula
  (libm_pow : float -> float -> float) (B : Backend float) (m : Memory float)
  (B' : Backend R) (m' : Memory R) (query : string) (now : datetime) :
  score (binary64 libm_pow) B m query now = spec_score (binary64 libm_pow) B m query now
  /\ score real_arith B' m' query now = spec_score real_arith B' m' query now.
Proof.
  split.
  - apply score_is_spec_score. intros x y. apply float_mul_comm.
  - apply score_is_spec_score. intros x y. apply Rmult_comm.
Qed.

(** C9.  Scoring only reads the memory: the object is the same after
    the call as before, and so are its importance, access count and last
    access time. *)
Theorem scoring_leaves_memory_unchanged {F : Type} (A : Arith F) (B : Backend F)
  (query : string) (now : datetime) (memory : Memory F) :
  let after := object_after (calculate_memory_relevance A B query now) memory in
  after = memory
  /\ mem_importance after = mem_importance memory
  /\ mem_access_count after = mem_access_count memory
  /\ mem_last_accessed after = mem_last_accessed memory.
Proof.
  cbv zeta.
  assert (H : object_after (calculate_memory_relevance A B query now) memory = memory).
  { unfold calculate_memory_relevance, object_after, bind, getattr, ret. reflexivity. }
  rewrite H. repeat split.
Qed.

(** By contrast, the caller's access update is visible on the object:
    the count goes up, the importance stays. *)
Example record_access_changes_the_object :
  let after := object_after (record_access (new_year_2024 + 1)) frequent_memory in
  mem_access_count after = 11
  /\ mem_last_accessed after = new_year_2024 + 1
  /\ mem_importance after = mem_importance frequent_memory
  /\ after <> frequent_memory.
Proof.
  cbv zeta. repeat split. intros H. apply (f_equal mem_access_count) in H.
  vm_compute in H. discriminate H.
Qed.

Lemma exp_nonpos_le_1 (y : R) : (y <= 0)%R -> (exp y <= 1)%R.
Proof.
  intros [Hlt | ->].
  - left. rewrite <- exp_0. now apply exp_increasing.
  - rewrite exp_0. lra.
Qed.

Lemma Rpower_decay (b x : R) :
  (0 < b <= 1)%R -> (0 <= x)%R -> (0 < Rpower b x <= 1)%R.
Proof.
  intros [Hb0 Hb1] Hx. unfold Rpower. split; [apply exp_pos|].
  apply exp_nonpos_le_1.
  assert (ln b <= 0)%R.
  { destruct Hb1 as [Hb1 | ->]; [|rewrite ln_1; lra].
    left. rewrite <- ln_1. now apply ln_increasing. }
  nra.
Qed.

Lemma Q2R_fraction (n : Z) (d : positive) : Q2R (n # d) = (IZR n / IZR (Z.pos d))%R.
Proof. reflexivity. Qed.

Lemma py_min_real (a b : R) : py_min real_arith a b = Rmin a b.
Proof.
  unfold py_min, Rmin; simpl.
  destruct (Rlt_dec b a), (Rle_dec a b); try reflexivity; lra.
Qed.

(** In binary64 the four weights do not add up to one: with every
    component at its maximum the sum is one unit in the last place above
    1, for any [pow] that returns 1 at exponent 0. *)
Lemma score_at_maximum (libm_pow : float -> float -> float) :
  libm_pow 0.5%float 0%float = 1%float ->
  score (binary64 libm_pow) unit_backend frequent_memory "User's name is Sarah" new_year_2024
  = 0x1.0000000000001p+0%float.
Proof.
  intros Hpow. rewrite score_unfold.
  cbn [fadd fmul fdiv fpow lit of_int binary64].
  replace (PrimFloat.div
             (float_of_Z (days (new_year_2024 - mem_last_accessed frequent_memory)))
             (float_of_Z 7)) with 0%float by (vm_compute; reflexivity).
  replace (float_of_Q 0.5) with 0.5%float by (vm_compute; reflexivity).
  rewrite Hpow. vm_compute. reflexivity.
Qed.

(** C10, as stated, fails in the arithmetic the code runs in: semantic
    similarity 1, importance 1, ten accesses and age 0 are all within
    the stated ranges, and the score is above 1. *)
Lemma relevance_above_one_in_binary64 :
  let A := binary64 example_pow in
  let query := "User's name is Sarah" in
  let semantic :=
    cosine_similarity unit_backend
      (embed unit_backend (mem_content frequent_memory)) (embed unit_backend query) in
  (PrimFloat.leb 0 semantic && PrimFloat.leb semantic 1 = true)
  /\ (PrimFloat.leb 0 (mem_importance frequent_memory)
      && PrimFloat.leb (mem_importance frequent_memory) 1 = true)
  /\ 0 <= mem_access_count frequent_memory
  /\ 0 <= days (new_year_2024 - mem_last_accessed frequent_memory)
  /\ PrimFloat.ltb 1 (score A unit_backend frequent_memory query new_year_2024) = true.
Proof.
  cbv zeta. split; [vm_compute; reflexivity|].
  split; [vm_compute; reflexivity|].
  split; [vm_compute; congruence|].
  split; [vm_compute; congruence|].
  rewrite (score_at_maximum example_pow) by (vm_compute; reflexivity).
  vm_compute. reflexivity.
Qed.

(** C10, amended.  In exact arithmetic the score lies in [0,1] whenever
    the semantic similarity and the importance lie in [0,1], the access
    count is not negative and the memory was last accessed no later than
    now. *)
Theorem relevance_within_unit_interval (B : Backend R) (m : Memory R)
  (query : string) (now : datetime) :
  (0 <= cosine_similarity B (embed B (mem_content m)) (embed B query) <= 1)%R ->
  (0 <= mem_importance m <= 1)%R ->
  0 <= mem_access_count m ->
  0 <= days (now - mem_last_accessed m) ->
  (0 <= score real_arith B m query now <= 1)%R.
Proof.
  intros Hs Hi Ha Hd. rewrite score_unfold.
  cbn [fadd fmul fdiv fpow lit of_int real_arith].
  rewrite py_min_real.
  set (s := cosine_similarity _ _ _) in *.
  assert (Hr : (0 < Rpower (Q2R 0.5)
                     (IZR (days (now - mem_last_accessed m)%Z) / IZR 7) <= 1)%R).
  { apply Rpower_decay.
    - rewrite Q2R_fraction. lra.
    - apply IZR_le in Hd. apply Rle_mult_inv_pos; lra. }
  set (r := Rpower _ _) in *.
  assert (Hf : (0 <= Rmin (IZR (mem_access_count m) / IZR 10) (Q2R 1) <= 1)%R).
  { apply IZR_le in Ha. rewrite RMicromega.Q2R_1. split.
    - apply Rmin_glb; [apply Rle_mult_inv_pos|]; lra.
    - apply Rmin_r. }
  set (f := Rmin _ _) in *.
  rewrite !Q2R_fraction. lra.
Qed.

(** A memory of importance 0.7, read three times, last read a week
    before the query. *)
Lemma relevance_within_unit_interval_witness :
  (0 <= score real_arith half_backend week_old_memory "detailed answers" new_year_2024 <= 1)%R.
Proof.
  apply (relevance_within_unit_interval half_backend week_old_memory).
  - simpl. lra.
  - simpl. lra.
  - simpl. lia.
  - vm_compute. congruence.
Defined.

(** ** Context assembly *)

Section AssemblyFacts.

Context {F : Type} (svc : Stores F) (session : ActiveSession).
Context (user_id character current_message : string).

Lemma assemble_sections_shape :
  assemble_sections svc session user_id character current_message =
  [MkSection CharacterProfile (get_character_profile svc character);
   MkSection UserProfile (format_user_profile svc (get_user_entities svc user_id character))]
  ++ episodic_part svc user_id character
  ++ [MkSection LongTermMemory
        (format_memories svc (semantic_search svc current_message user_id character 5))]
  ++ working_part svc session
  ++ [MkSection ShortTermBuffer
        (format_messages svc (get_recent_messages svc (session_id session)
           (buffer_budget svc session user_id character current_message)))].
Proof.
  unfold assemble_sections, buffer_budget, assemble_trace, episodic_part, working_part.
  destruct (truthy _); destruct (10 <? _); reflexivity.
Qed.

Lemma buffer_budget_value :
  buffer_budget svc session user_id character current_message =
  4000 - 500 - 200
  - match episodic_part svc user_id character with [] => 0 | _ => 200 end
  - 300
  - match working_part svc session with [] => 0 | _ => 300 end.
Proof.
  unfold buffer_budget, assemble_trace, episodic_part, working_part.
  destruct (truthy _); destruct (10 <? _); reflexivity.
Qed.

Lemma buffer_budget_range :
  2500 <= buffer_budget svc session user_id character current_message <= 3000.
Proof.
  rewrite buffer_budget_value. unfold episodic_part, working_part.
  destruct (truthy _); destruct (10 <? _); simpl; lia.
Qed.

End AssemblyFacts.

Lemma total_tokens_app count_tokens (l1 l2 : list string) :
  total_tokens count_tokens (l1 ++ l2)
  = total_tokens count_tokens l1 + total_tokens count_tokens l2.
Proof.
  unfold total_tokens. induction l1 as [|x l1 IH]; simpl; [reflexivity|].
  rewrite IH. lia.
Qed.

(** C1, as stated, fails: nothing in [assemble_context] measures what it
    appends.  With a character profile of 4001 words and one token per
    word the sections add up to more than the budget of 4000. *)
Lemma verbose_profile_exceeds_budget :
  4000 < total_tokens word_count
           (assemble_context verbose_stores session_of_12 "u1" "Batman" "Hello").
Proof. vm_compute. reflexivity. Qed.

(** C1, amended.  [assemble_context] takes no budget: it starts from
    4000, sets aside 500, 200, 200, 300 and 300 tokens for the sections
    it appends and asks [get_recent_messages] for at most the rest, which
    lies between 2500 and 3000.  When every appended section stays within
    the amount set aside for it and the message buffer within what it
    was asked for, the token counts of the returned list add up to at
    most 4000. *)
Theorem assembled_tokens_within_budget {F : Type} (svc : Stores F)
  (session : ActiveSession) (count_tokens : string -> Z)
  (user_id character current_message : string) :
  count_tokens (get_character_profile svc character) <= 500 ->
  count_tokens (format_user_profile svc (get_user_entities svc user_id character)) <= 200 ->
  (forall summary, truthy (get_last_session_summary svc user_id character) = Some summary ->
     count_tokens ("Last conversation: " +:+ summary) <= 200) ->
  count_tokens (format_memories svc (semantic_search svc current_message user_id character 5))
    <= 300 ->
  (10 < session_message_count session ->
     count_tokens ("Conversation so far: " +:+ get_working_memory svc (session_id session))
       <= 300) ->
  (forall max_tokens, 0 <= max_tokens ->
     count_tokens (format_messages svc
       (get_recent_messages svc (session_id session) max_tokens)) <= max_tokens) ->
  assemble_sections svc session user_id character current_message =
    [MkSection CharacterProfile (get_character_profile svc character);
     MkSection UserProfile
       (format_user_profile svc (get_user_entities svc user_id character))]
    ++ episodic_part svc user_id character
    ++ [MkSection LongTermMemory
          (format_memories svc (semantic_search svc current_message user_id character 5))]
    ++ working_part svc session
    ++ [MkSection ShortTermBuffer
          (format_messages svc (get_recent_messages svc (session_id session)
             (buffer_budget svc session user_id character current_message)))]
  /\ 2500 <= buffer_budget svc session user_id character current_message <= 3000
  /\ total_tokens count_tokens
       (assemble_context svc session user_id character current_message) <= 4000.
Proof.
  intros Hprofile Huser Hlast Hmem Hwm Hbuf.
  split; [apply assemble_sections_shape|].
  pose proof (buffer_budget_range svc session user_id character current_message) as Hrange.
  split; [exact Hrange|].
  specialize (Hbuf (buffer_budget svc session user_id character current_message)
                ltac:(lia)).
  revert Hbuf. unfold assemble_context.
  rewrite assemble_sections_shape, buffer_budget_value.
  unfold episodic_part, working_part.
  destruct (truthy (get_last_session_summary svc user_id character)) as [summary|] eqn:Hs;
    destruct (10 <? session_message_count session) eqn:Hc;
    cbn [map app text length total_tokens fold_right]; intros Hbuf.
  - specialize (Hlast summary eq_refl). apply Z.ltb_lt in Hc. specialize (Hwm Hc). lia.
  - specialize (Hlast summary eq_refl). lia.
  - apply Z.ltb_lt in Hc. specialize (Hwm Hc). lia.
  - lia.
Qed.

(** A session of twenty messages against the small memory service, one
    token per word. *)
Lemma assembled_tokens_within_budget_witness :
  map label (assemble_sections modest_stores session_of_20 "u1" "Batman" "Tell me about Alfred")
    = [CharacterProfile; UserProfile; EpisodicMemory; LongTermMemory; WorkingMemory;
       ShortTermBuffer]
  /\ buffer_budget modest_stores session_of_20 "u1" "Batman" "Tell me about Alfred" = 2500
  /\ total_tokens word_count
       (assemble_context modest_stores session_of_20 "u1" "Batman" "Tell me about Alfred")
     <= 4000.
Proof.
  split; [vm_compute; reflexivity|]. split; [vm_compute; reflexivity|].
  apply (assembled_tokens_within_budget modest_stores session_of_20 word_count).
  - vm_compute. congruence.
  - vm_compute. congruence.
  - intros summary H. injection H as <-. vm_compute. congruence.
  - vm_compute. congruence.
  - intros _. vm_compute. congruence.
  - intros max_tokens Hmax. cbn [get_recent_messages format_messages modest_stores].
    destruct (13 <=? max_tokens) eqn:Hfit.
    + apply Z.leb_le in Hfit. vm_compute word_count. lia.
    + vm_compute word_count. lia.
Defined.

(** C4, as stated, fails: the listing has no truncation.  With the
    4001-word profile the two fixed sections alone exceed the budget of
    4000, and the persona section of the result is the whole profile,
    itself longer than the budget. *)
Lemma persona_is_not_truncated :
  let context := assemble_context verbose_stores session_of_12 "u1" "Batman" "Hello" in
  4000 < word_count (get_character_profile verbose_stores "Batman")
         + word_count (format_user_profile verbose_stores
                         (get_user_entities verbose_stores "u1" "Batman"))
  /\ head context = Some overlong_profile
  /\ 4000 < total_tokens word_count (firstn 1 context).
Proof. vm_compute. repeat split; reflexivity. Qed.

(** C4, amended.  The character profile is never dropped: it is always
    the first entry of the list [assemble_context] returns, whole and
    unshortened whatever its length; the function takes no token_budget
    argument and has no truncation path. *)
Theorem persona_always_first {F : Type} (svc : Stores F) (session : ActiveSession)
  (user_id character current_message : string) :
  head (assemble_sections svc session user_id character current_message)
    = Some (MkSection CharacterProfile (get_character_profile svc character))
  /\ exists rest,
       assemble_context svc session user_id character current_message
       = get_character_profile svc character :: rest.
Proof.
  unfold assemble_context. rewrite assemble_sections_shape. split; [reflexivity|].
  eexists. reflexivity.
Qed.

(** C5, as stated, fails at the capacity of its own scenario: twelve
    messages do not exceed a raw buffer of fifteen, and the working
    memory section is included all the same. *)
Lemma working_memory_included_below_capacity :
  ~ scenario_buffer_capacity < session_message_count session_of_12
  /\ In WorkingMemory
       (map label (assemble_sections verbose_stores session_of_12 "u1" "Batman" "Hello")).
Proof. split; [vm_compute; congruence|]. vm_compute. tauto. Qed.

(** C5, amended.  The working memory section is included if and only if
    the session has more than 10 messages, a threshold fixed in the
    listing and independent of any buffer capacity.  When included it is
    "Conversation so far: " followed by the stored working memory and
    stands directly before the message buffer, which closes the list;
    the buffer is what [get_recent_messages] returns for the remaining
    token budget. *)
Theorem working_memory_section_rule {F : Type} (svc : Stores F)
  (session : ActiveSession) (user_id character current_message : string) :
  let sections := assemble_sections svc session user_id character current_message in
  let buffer :=
    MkSection ShortTermBuffer
      (format_messages svc (get_recent_messages svc (session_id session)
         (buffer_budget svc session user_id character current_message))) in
  (In WorkingMemory (map label sections) <-> 10 < session_message_count session)
  /\ (10 < session_message_count session ->
      exists before,
        sections = before ++
          [MkSection WorkingMemory
             ("Conversation so far: " +:+ get_working_memory svc (session_id session));
           buffer]
        /\ ~ In WorkingMemory (map label before))
  /\ (session_message_count session <= 10 ->
      exists before, sections = before ++ [buffer]
        /\ ~ In WorkingMemory (map label before)).
Proof.
  cbv zeta. rewrite assemble_sections_shape.
  unfold working_part.
  set (fixed := [MkSection CharacterProfile _; MkSection UserProfile _]).
  assert (Hfixed : ~ In WorkingMemory (map label fixed)).
  { simpl. intuition congruence. }
  assert (Hepi : ~ In WorkingMemory (map label (episodic_part svc user_id character))).
  { unfold episodic_part. destruct (truthy _); simpl; intuition congruence. }
  destruct (10 <? session_message_count session) eqn:Hc;
    [apply Z.ltb_lt in Hc | apply Z.ltb_ge in Hc].
  - split; [|split].
    + split; [intros _; exact Hc|]. intros _.
      rewrite !map_app, !in_app_iff. simpl. tauto.
    + intros _. eexists (fixed ++ episodic_part svc user_id character ++ [_]).
      rewrite <- !app_assoc. split; [reflexivity|].
      rewrite !map_app, !in_app_iff. simpl. intuition congruence.
    + lia.
  - split; [|split].
    + split; [|lia]. rewrite !map_app, !in_app_iff. simpl. intuition congruence.
    + lia.
    + intros _. eexists (fixed ++ episodic_part svc user_id character ++ [_]).
      rewrite <- !app_assoc. split; [reflexivity|].
      rewrite !map_app, !in_app_iff. simpl. intuition congruence.
Qed.

(** ** The chat store: messages in the order of their timestamps *)

Lemma holds_split rt s :
  holds rt s <->
  store_holds (store rt) s \/ exists r, In r (pending rt) /\ request_holds r s.
Proof. unfold holds, store_holds, request_holds. tauto. Qed.

Lemma last_cons_default {X} (a d : X) (l : list X) :
  List.last (a :: l) d = List.last l a.
Proof.
  revert a d. induction l as [|b l IH]; intros a d; [reflexivity|].
  change (List.last (a :: b :: l) d) with (List.last (b :: l) d).
  now rewrite !IH.
Qed.

Lemma last_app_default {X} (l1 l2 : list X) (d : X) :
  List.last (l1 ++ l2) d = List.last l2 (List.last l1 d).
Proof.
  revert d. induction l1 as [|a l1 IH]; intros d; [reflexivity|].
  cbn [app]. rewrite !last_cons_default. apply IH.
Qed.

Lemma monotone_from_app t l1 l2 :
  monotone_from t (l1 ++ l2) <-> monotone_from t l1 /\ monotone_from (List.last l1 t) l2.
Proof.
  revert t. induction l1 as [|r l1 IH]; intros t.
  - simpl. tauto.
  - rewrite last_cons_default. cbn [app monotone_from]. rewrite IH. tauto.
Qed.

Lemma monotone_from_last t l : monotone_from t l -> t <= List.last l t.
Proof.
  revert t. induction l as [|r l IH]; intros t; [simpl; lia|].
  rewrite last_cons_default. cbn [monotone_from]. intros [Htr Hl].
  specialize (IH _ Hl). lia.
Qed.

Lemma not_after_later t t' (ms : list ChatMessage) :
  t <= t' -> not_after t ms -> not_after t' ms.
Proof.
  unfold not_after. intros Hle H. eapply Forall_impl; [exact H|].
  simpl; intros; lia.
Qed.

Lemma session_ok_later t t' s : t <= t' -> session_ok t s -> session_ok t' s.
Proof. intros Hle [Hc Hn]. split; [exact Hc|]. now apply (not_after_later t). Qed.

Lemma session_ok_empty t s : messages s = [] -> session_ok t s.
Proof.
  intros H. unfold session_ok, chronological, not_after. rewrite H.
  split; constructor.
Qed.

Lemma chronological_snoc (ms : list ChatMessage) (m : ChatMessage) :
  chronological ms -> not_after (timestamp m) ms -> chronological (ms ++ [m]).
Proof.
  unfold chronological, not_after.
  induction ms as [|x ms IH]; simpl; intros Hs Hn.
  - repeat constructor.
  - inversion Hs as [|? ? Hs' Hx]; subst. inversion Hn as [|? ? Hxm Hn']; subst.
    constructor; [auto|]. apply Forall_app. split; [exact Hx|].
    repeat constructor. exact Hxm.
Qed.

Lemma not_after_snoc t (ms : list ChatMessage) (m : ChatMessage) :
  not_after t ms -> timestamp m <= t -> not_after t (ms ++ [m]).
Proof.
  unfold not_after. intros. apply Forall_app. split; [assumption|].
  repeat constructor. assumption.
Qed.

(** Appending a message stamped [t1] to a session in order up to [t],
    with [t <= t1 <= t2], gives a session in order up to [t2]. *)
Lemma session_ok_snoc t t1 t2 (before after : ChatSession) (m : ChatMessage) :
  session_ok t before -> t <= t1 -> t1 <= t2 -> timestamp m = t1 ->
  messages after = messages before ++ [m] ->
  session_ok t2 after.
Proof.
  intros [Hc Hn] H1 H2 Hm Hafter. unfold session_ok. rewrite Hafter. split.
  - apply chronological_snoc; [exact Hc|]. rewrite Hm. now apply (not_after_later t).
  - apply not_after_snoc; [apply (not_after_later t); [lia | exact Hn] | lia].
Qed.

Lemma store_holds_set_ui typing streaming status err st s :
  store_holds (set_ui typing streaming status err st) s <-> store_holds st s.
Proof. reflexivity. Qed.

Lemma store_holds_set_session key s0 st s :
  store_holds (set_session key s0 st) s -> s = s0 \/ store_holds st s.
Proof.
  unfold store_holds; simpl. intros [H | [k H]].
  - left. congruence.
  - destruct (decide (key = k)) as [->|Hne].
    + rewrite lookup_insert_eq in H. left. congruence.
    + rewrite lookup_insert_ne in H by assumption. right. right. eauto.
Qed.

Lemma store_holds_loadCharacterSession cid fresh now st s :
  store_holds (loadCharacterSession cid fresh now st) s ->
  messages s = [] \/ store_holds st s.
Proof.
  unfold loadCharacterSession.
  destruct (sessions st !! cid) as [existing|] eqn:Hl.
  - unfold store_holds; simpl. intros [H | H]; right.
    + right. exists cid. congruence.
    + right. exact H.
  - intros H. apply store_holds_set_session in H.
    destruct H as [-> | H]; [left; reflexivity | right; exact H].
Qed.

Lemma store_holds_setCharacter c fresh now st s :
  store_holds (setCharacter c fresh now st) s ->
  messages s = [] \/ store_holds st s.
Proof.
  unfold setCharacter. intros H.
  apply store_holds_loadCharacterSession in H. exact H.
Qed.

Lemma store_holds_clearCurrentChat now st s :
  store_holds (clearCurrentChat now st) s ->
  messages s = [] \/ store_holds st s.
Proof.
  unfold clearCurrentChat. destruct (currentSession st) as [cur|] eqn:Hc; [|tauto].
  rewrite store_holds_set_ui. intros H. apply store_holds_set_session in H.
  destruct H as [-> | H]; [left; reflexivity | right; exact H].
Qed.

Lemma sendMessage_spec message t1 t2 rt rt' :
  sendMessage message t1 t2 rt = Some rt' ->
  exists before character,
    currentSession (store rt) = Some before
    /\ currentCharacter (store rt) = Some character
    /\ let m := MkChatMessage message role_user t1 (Some (name character)) in
       let after := MkChatSession (characterId before) (characterName before)
                      (sessionId before) (messages before ++ [m]) t2
                      (memoriesUsed before) (tokensUsed before) (isNewSession before) in
       rt' = MkRuntime
               (set_session (characterId before) after (set_ui true "" "" None (store rt)))
               (pending rt ++ [MkRequest character before after]).
Proof.
  unfold sendMessage.
  destruct (currentSession (store rt)) as [before|]; [|discriminate].
  destruct (currentCharacter (store rt)) as [character|]; [|discriminate].
  intros H. injection H as <-. exists before, character. repeat split.
Qed.

(** One event keeps every held session in order, provided the clock
    does not run backwards while it is handled. *)
Lemma step_ok t rt e :
  runtime_ok t rt -> monotone_from t (readings e) ->
  runtime_ok (List.last (readings e) t) (step rt e).
Proof.
  intros Hok Hmono. pose proof (monotone_from_last _ _ Hmono) as Hlast.
  assert (Hkeep : forall s, holds rt s -> session_ok (List.last (readings e) t) s).
  { intros s Hs. eapply session_ok_later; [exact Hlast | auto]. }
  assert (Hstore : forall f,
    (forall s, store_holds (f (store rt)) s -> messages s = [] \/ store_holds (store rt) s) ->
    runtime_ok (List.last (readings e) t) (on_store f rt)).
  { intros f Hf s Hs. apply holds_split in Hs. simpl in Hs. destruct Hs as [Hs | Hs].
    - apply Hf in Hs. destruct Hs as [Hs | Hs]; [now apply session_ok_empty|].
      apply Hkeep. apply holds_split. now left.
    - apply Hkeep. apply holds_split. now right. }
  destruct e as [c fresh now | cid fresh now | message t1 t2 | now | i chunk | i status
                | i done t1 t2 | i]; cbn [step].
  - apply Hstore. intros s. apply store_holds_setCharacter.
  - apply Hstore. intros s. apply store_holds_loadCharacterSession.
  - destruct (sendMessage message t1 t2 rt) as [rt'|] eqn:Hsend; [|exact Hkeep].
    apply sendMessage_spec in Hsend.
    destruct Hsend as (before & character & Hcur & Hchar & ->).
    simpl in Hmono. destruct Hmono as (Ht1 & Ht2 & _).
    change (List.last (readings (SendMessage message t1 t2)) t) with t2 in *.
    assert (Hb : session_ok t before). { apply Hok. left. exact Hcur. }
    assert (Hnew : forall s,
      messages s = messages before ++
        [MkChatMessage message role_user t1 (Some (name character))] ->
      session_ok t2 s).
    { intros s Hm. eapply (session_ok_snoc t t1 t2 before s); eauto. reflexivity. }
    intros s Hs. apply holds_split in Hs. cbn [store pending] in Hs.
    destruct Hs as [Hs | (r & Hr & Hs)].
    + apply store_holds_set_session in Hs.
      destruct Hs as [-> | Hs]; [apply Hnew; reflexivity|].
      rewrite store_holds_set_ui in Hs. apply Hkeep. apply holds_split. now left.
    + apply in_app_iff in Hr. destruct Hr as [Hr | [<- | []]].
      * apply Hkeep. apply holds_split. right. eauto.
      * destruct Hs as [-> | ->]; cbn [req_currentSession req_updatedSession].
        -- apply Hkeep. left. exact Hcur.
        -- apply Hnew. reflexivity.
  - apply Hstore. intros s. apply store_holds_clearCurrentChat.
  - unfold on_request. destruct (pending rt !! i); [|exact Hkeep].
    apply Hstore. intros s Hs. right. exact Hs.
  - unfold on_request. destruct (pending rt !! i); [|exact Hkeep].
    apply Hstore. intros s Hs. right. exact Hs.
  - unfold on_request. destruct (pending rt !! i) as [r|] eqn:Hi; [|exact Hkeep].
    simpl in Hmono. destruct Hmono as (Ht1 & Ht2 & _).
    change (List.last (readings (StreamDone i done t1 t2)) t) with t2 in *.
    assert (Hr : In r (pending rt)).
    { apply list_elem_of_In. eapply list_elem_of_lookup_2. exact Hi. }
    assert (Hu : session_ok t (req_updatedSession r)).
    { apply Hok. apply holds_split. right. exists r. split; [exact Hr|]. now right. }
    intros s Hs. apply holds_split in Hs. cbn [on_store store pending] in Hs.
    destruct Hs as [Hs | Hs]; [|apply Hkeep; apply holds_split; now right].
    unfold onDone in Hs. rewrite store_holds_set_ui in Hs.
    apply store_holds_set_session in Hs. destruct Hs as [-> | Hs].
    + eapply (session_ok_snoc t t1 t2 (req_updatedSession r)); eauto; reflexivity.
    + apply Hkeep. apply holds_split. now left.
  - unfold on_request. destruct (pending rt !! i); [|exact Hkeep].
    apply Hstore. intros s Hs. right. exact Hs.
Qed.

Lemma run_ok events : forall t rt,
  runtime_ok t rt -> monotone_from t (clock events) ->
  runtime_ok (List.last (clock events) t) (run rt events).
Proof.
  induction events as [|e events IH]; intros t rt Hok Hmono; [exact Hok|].
  unfold clock in *. cbn [flat_map run fold_left] in *.
  apply monotone_from_app in Hmono. destruct Hmono as [He Hrest].
  rewrite last_app_default. apply IH; [|exact Hrest]. now apply step_ok.
Qed.

(** C8, amended.  In every session of the store the messages are in
    non-decreasing order of their timestamps, as long as the clock that
    stamps them does not run backwards: this holds after any sequence of
    store actions and stream callbacks, for the current session, the
    stored ones and those captured by callbacks in flight.  [sendMessage]
    puts the user message at the end of the current session, and the
    stream's [done] callback puts the assistant message at the end of the
    session its request captured; in both the new timestamp is at least
    every earlier one and the earlier messages keep their order. *)
Theorem messages_ordered_by_timestamp
  (rt0 : Runtime) (t0 : instant) (events : list Event) :
  (forall s, holds rt0 s -> chronological (messages s) /\ not_after t0 (messages s)) ->
  monotone_from t0 (clock events) ->
  let rt := run rt0 events in
  let t := List.last (clock events) t0 in
  (forall s, holds rt s -> chronological (messages s))
  /\ (forall message t1 t2 rt', t <= t1 ->
        sendMessage message t1 t2 rt = Some rt' ->
        exists before after m,
          currentSession (store rt) = Some before
          /\ currentSession (store rt') = Some after
          /\ sessions (store rt') !! characterId before = Some after
          /\ messages after = messages before ++ [m]
          /\ timestamp m = t1
          /\ Forall (fun earlier => timestamp earlier <= timestamp m) (messages before))
  /\ (forall r done t1 t2, In r (pending rt) -> t <= t1 ->
        exists after m,
          currentSession (onDone r done t1 t2 (store rt)) = Some after
          /\ sessions (onDone r done t1 t2 (store rt)) !! characterId (req_currentSession r)
             = Some after
          /\ messages after = messages (req_updatedSession r) ++ [m]
          /\ timestamp m = t1
          /\ Forall (fun earlier => timestamp earlier <= timestamp m)
               (messages (req_updatedSession r))).
Proof.
  intros Hinit Hmono rt t.
  assert (Hok : runtime_ok t rt) by (apply run_ok; assumption).
  split; [|split].
  - intros s Hs. apply (Hok s Hs).
  - intros message t1 t2 rt' Ht Hsend. apply sendMessage_spec in Hsend.
    destruct Hsend as (before & character & Hcur & _ & ->).
    eexists before, _, _. split; [exact Hcur|]. cbn [store currentSession set_session sessions].
    split; [reflexivity|]. split; [apply lookup_insert_eq|].
    split; [reflexivity|]. split; [reflexivity|]. cbn [timestamp].
    destruct (Hok before (or_introl Hcur)) as [_ Hn].
    now apply (not_after_later t).
  - intros r done t1 t2 Hr Ht. eexists _, _. unfold onDone.
    cbn [set_ui set_session currentSession sessions].
    split; [reflexivity|]. split; [apply lookup_insert_eq|].
    split; [reflexivity|]. split; [reflexivity|]. cbn [timestamp].
    assert (Hu : session_ok t (req_updatedSession r)).
    { apply Hok. apply holds_split. right. exists r. split; [exact Hr|]. now right. }
    destruct Hu as [_ Hn]. now apply (not_after_later t).
Qed.

Lemma empty_runtime_holds_nothing s : ~ holds empty_runtime s.
Proof.
  intros [H | [[key H] | (r & [] & _)]].
  - discriminate H.
  - simpl in H. rewrite lookup_empty in H. discriminate H.
Qed.

(** The first exchange with Batman, starting from the empty store. *)
Lemma messages_ordered_by_timestamp_witness :
  let rt := run empty_runtime first_exchange in
  let t := List.last (clock first_exchange) 1704067200000 in
  (forall s, holds rt s -> chronological (messages s))
  /\ (forall message t1 t2 rt', t <= t1 ->
        sendMessage message t1 t2 rt = Some rt' ->
        exists before after m,
          currentSession (store rt) = Some before
          /\ currentSession (store rt') = Some after
          /\ sessions (store rt') !! characterId before = Some after
          /\ messages after = messages before ++ [m]
          /\ timestamp m = t1
          /\ Forall (fun earlier => timestamp earlier <= timestamp m) (messages before))
  /\ (forall r done t1 t2, In r (pending rt) -> t <= t1 ->
        exists after m,
          currentSession (onDone r done t1 t2 (store rt)) = Some after
          /\ sessions (onDone r done t1 t2 (store rt)) !! characterId (req_currentSession r)
             = Some after
          /\ messages after = messages (req_updatedSession r) ++ [m]
          /\ timestamp m = t1
          /\ Forall (fun earlier => timestamp earlier <= timestamp m)
               (messages (req_updatedSession r))).
Proof.
  apply (messages_ordered_by_timestamp empty_runtime 1704067200000 first_exchange).
  - intros s Hs. destruct (empty_runtime_holds_nothing s Hs).
  - simpl. lia.
Defined.

(** The store never sorts and stamps each message with the clock reading
    at the time it is appended.  When the clock is set back between a
    message and its reply, the stored messages are out of order. *)
Lemma clock_set_back_breaks_order :
  let rt := run empty_runtime clock_set_back in
  map timestamp (getCharacterMessages "Batman" (store rt))
    = [1704067205000; 1704067204000]
  /\ (exists s, holds rt s /\ messages s = getCharacterMessages "Batman" (store rt)
        /\ ~ chronological (messages s)).
Proof.
  cbv zeta. split; [vm_compute; reflexivity|].
  destruct (currentSession (store (run empty_runtime clock_set_back))) as [s|] eqn:Hs;
    [|vm_compute in Hs; discriminate].
  exists s. split; [left; exact Hs|].
  vm_compute in Hs. injection Hs as <-. split; [vm_compute; reflexivity|].
  cbn [messages]. intros Hsorted.
  inversion Hsorted as [|? ? _ Hall]; subst.
  inversion Hall as [|? ? Hle _]; subst. cbn [timestamp] in Hle. lia.
Qed.

(** The exchange of the witness leaves the two messages in the session,
    the user's first. *)
Example first_exchange_messages :
  map (fun m => (role m, content m, timestamp m))
    (getCharacterMessages "Batman" (store (run empty_runtime first_exchange)))
  = [ (role_user, "What drives you to fight crime?", 1704067205000);
      (role_assistant, "The night my parents died.", 1704067207500) ].
Proof. vm_compute. reflexivity. Qed.

(** ** The ranker's ordering *)

Section RankerFacts.

Context {F : Type} (A : Arith F) (relevance : Memory F -> F).

Lemma ranks_before_total a b :
  ranks_before A relevance a b = false -> ranks_before A relevance b a = true.
Proof.
  unfold ranks_before.
  destruct (flt A (relevance b) (relevance a)); [discriminate|].
  destruct (flt A (relevance a) (relevance b)); [reflexivity|].
  destruct (mem_created_at b <? mem_created_at a) eqn:H1; [discriminate|].
  destruct (mem_created_at a <? mem_created_at b) eqn:H2; [reflexivity|].
  intros H3. apply Z.leb_gt in H3. apply Z.leb_le. lia.
Qed.

Lemma insert_ranked_perm m l : Permutation (insert_ranked A relevance m l) (m :: l).
Proof.
  induction l as [|x l IH]; simpl; [reflexivity|].
  destruct (ranks_before A relevance m x); [reflexivity|].
  rewrite IH. apply perm_swap.
Qed.

Lemma rank_by_perm l : Permutation (rank_by A relevance l) l.
Proof.
  induction l as [|m l IH]; simpl; [reflexivity|].
  rewrite insert_ranked_perm. now constructor.
Qed.

Context (scores : list F) (Horder : consistent_order A scores).

Lemma ranks_before_trans a b c :
  known relevance scores a -> known relevance scores b -> known relevance scores c ->
  outranks A relevance a b -> outranks A relevance b c -> outranks A relevance a c.
Proof.
  unfold known, outranks. intros Ka Kb Kc.
  destruct (Horder _ _ _ Ka Kb Kc) as (_ & Tabc & Nabc).
  destruct (Horder _ _ _ Kc Kb Ka) as (_ & Tcba & Ncba).
  destruct (Horder _ _ _ Kb Kc Ka) as (_ & _ & Nbca).
  destruct (Horder _ _ _ Kc Ka Kb) as (_ & _ & Ncab).
  unfold ranks_before.
  destruct (flt A (relevance b) (relevance a)) eqn:Hba;
  destruct (flt A (relevance a) (relevance b)) eqn:Hab;
  destruct (flt A (relevance c) (relevance b)) eqn:Hcb;
  destruct (flt A (relevance b) (relevance c)) eqn:Hbc;
  destruct (flt A (relevance c) (relevance a)) eqn:Hca;
  destruct (flt A (relevance a) (relevance c)) eqn:Hac;
  try reflexivity; try discriminate;
  try (specialize (Tabc eq_refl eq_refl); discriminate);
  try (specialize (Tcba eq_refl eq_refl); discriminate);
  try (specialize (Nabc eq_refl eq_refl); discriminate);
  try (specialize (Ncba eq_refl eq_refl); discriminate);
  try (specialize (Nbca eq_refl eq_refl); discriminate);
  try (specialize (Ncab eq_refl eq_refl); discriminate);
  intros H1 H2;
  repeat match goal with
  | H : context [?x <? ?y] |- _ => destruct (Z.ltb_spec x y)
  | |- context [?x <? ?y] => destruct (Z.ltb_spec x y)
  end; try reflexivity; try discriminate; try lia.
  all: apply Z.leb_le in H1; apply Z.leb_le in H2; apply Z.leb_le; lia.
Qed.

Lemma ranks_before_antisym a b :
  known relevance scores a -> known relevance scores b ->
  outranks A relevance a b -> outranks A relevance b a -> mem_id a = mem_id b.
Proof.
  unfold known, outranks. intros Ka Kb.
  destruct (Horder _ _ _ Ka Kb Ka) as (Ia & Taba & _).
  unfold ranks_before.
  destruct (flt A (relevance b) (relevance a)) eqn:Hba;
  destruct (flt A (relevance a) (relevance b)) eqn:Hab;
  try discriminate;
  try (specialize (Taba eq_refl eq_refl); congruence).
  intros H1 H2.
  repeat match goal with
  | H : context [?x <? ?y] |- _ => destruct (Z.ltb_spec x y)
  end; try discriminate; try lia;
  apply Z.leb_le in H1; apply Z.leb_le in H2; lia.
Qed.

Lemma insert_ranked_sorted m l :
  known relevance scores m -> Forall (known relevance scores) l ->
  StronglySorted (outranks A relevance) l ->
  StronglySorted (outranks A relevance) (insert_ranked A relevance m l).
Proof.
  intros Km. induction l as [|x l IH]; intros Kl Hs; simpl.
  - repeat constructor.
  - inversion Kl as [|? ? Kx Kl']; subst. inversion Hs as [|? ? Hs' Hx]; subst.
    destruct (ranks_before A relevance m x) eqn:Hmx.
    + constructor; [exact Hs|]. constructor; [exact Hmx|].
      rewrite Forall_forall in *. intros y Hy.
      apply (ranks_before_trans m x y); auto.
    + constructor; [apply IH; assumption|].
      rewrite Forall_forall. intros y Hy.
      apply list_elem_of_In in Hy.
      apply (Permutation_in _ (insert_ranked_perm m l)) in Hy.
      destruct Hy as [<- | Hy]; [now apply ranks_before_total|].
      rewrite Forall_forall in Hx. apply Hx. now apply list_elem_of_In.
Qed.

Lemma rank_by_sorted l :
  Forall (known relevance scores) l ->
  StronglySorted (outranks A relevance) (rank_by A relevance l).
Proof.
  induction l as [|m l IH]; intros Kl; simpl; [constructor|].
  inversion Kl as [|? ? Km Kl']; subst. apply insert_ranked_sorted; auto.
  rewrite Forall_forall in *. intros y Hy.
  apply list_elem_of_In in Hy. apply (Permutation_in _ (rank_by_perm l)) in Hy.
  apply Kl'. now apply list_elem_of_In.
Qed.

Lemma sorted_precedes (R : Memory F -> Memory F -> Prop) a b l :
  StronglySorted R l -> precedes a b l -> R a b.
Proof.
  intros Hs (l1 & l2 & l3 & ->).
  induction l1 as [|x l1 IH]; simpl in Hs.
  - inversion Hs as [|? ? _ Hall]; subst. rewrite Forall_forall in Hall.
    apply Hall. apply list_elem_of_In. apply in_or_app. right. now left.
  - inversion Hs; subst. auto.
Qed.

(** Two rankings of the same memories are the same list. *)
Lemma sorted_perm_unique (l1 : list (Memory F)) : forall l2,
  Forall (known relevance scores) l1 ->
  NoDup (map mem_id l1) ->
  StronglySorted (outranks A relevance) l1 ->
  StronglySorted (outranks A relevance) l2 ->
  Permutation l1 l2 -> l1 = l2.
Proof.
  induction l1 as [|a l1 IH]; intros l2 Kl Hnd Hs1 Hs2 Hp.
  - apply Permutation_nil in Hp. now subst.
  - destruct l2 as [|b l2];
      [apply Permutation_sym, Permutation_nil in Hp; discriminate|].
    inversion Kl as [|? ? Ka Kl1]; subst.
    inversion Hs1 as [|? ? Hs1' Ha]; subst. inversion Hs2 as [|? ? Hs2' Hb]; subst.
    rewrite Forall_forall in Ha, Hb, Kl1.
    assert (Hk : forall x, In x (a :: l1) -> known relevance scores x).
    { intros x [<- | Hx]; [exact Ka | apply Kl1; now apply list_elem_of_In]. }
    assert (Hab : a = b).
    { assert (Hina : In a (b :: l2)) by (eapply Permutation_in; [exact Hp | now left]).
      assert (Hinb : In b (a :: l1))
        by (eapply Permutation_in; [symmetry; exact Hp | now left]).
      destruct Hina as [Heq | Hina]; [now symmetry|].
      destruct Hinb as [Heq | Hinb]; [exact Heq|].
      assert (Hid : mem_id a = mem_id b).
      { apply ranks_before_antisym; [exact Ka | apply Hk; now right | |].
        - apply Ha. now apply list_elem_of_In.
        - apply Hb. now apply list_elem_of_In. }
      exfalso. simpl in Hnd. apply NoDup_cons in Hnd. destruct Hnd as [Hnotin _].
      apply Hnotin. rewrite Hid. apply list_elem_of_In. now apply in_map. }
    subst b. f_equal. apply IH; auto.
    + rewrite Forall_forall. exact Kl1.
    + simpl in Hnd. apply NoDup_cons in Hnd. tauto.
    + now apply Permutation_cons_inv in Hp.
Qed.

End RankerFacts.

Lemma precedes_or {X} (a b : X) (l : list X) :
  In a l -> In b l -> a <> b -> precedes a b l \/ precedes b a l.
Proof.
  intros Ha Hb Hne. apply in_split in Ha. destruct Ha as (l1 & l2 & ->).
  apply in_app_or in Hb. destruct Hb as [Hb | [Hb | Hb]]; [|congruence|].
  - apply in_split in Hb. destruct Hb as (l3 & l4 & ->). right.
    exists l3, l4, l2. now rewrite <- app_assoc.
  - apply in_split in Hb. destruct Hb as (l3 & l4 & ->). left.
    exists l1, l3, l4. reflexivity.
Qed.

Lemma same_id_same_memory {F} (l : list (Memory F)) (a b : Memory F) :
  NoDup (map mem_id l) -> In a l -> In b l -> mem_id a = mem_id b -> a = b.
Proof.
  induction l as [|x l IH]; intros Hnd Ha Hb Hid; [contradiction|].
  simpl in Hnd. apply NoDup_cons in Hnd. destruct Hnd as [Hx Hnd].
  destruct Ha as [<- | Ha], Hb as [<- | Hb]; auto.
  - exfalso. apply Hx. rewrite Hid. apply list_elem_of_In. now apply in_map.
  - exfalso. apply Hx. rewrite <- Hid. apply list_elem_of_In. now apply in_map.
Qed.

Lemma consistent_order_real (xs : list R) : consistent_order real_arith xs.
Proof.
  intros a b c _ _ _. simpl.
  destruct (Rlt_dec a a), (Rlt_dec a b), (Rlt_dec b c), (Rlt_dec a c);
    repeat split; intros; try reflexivity; try discriminate; lra.
Qed.

(** C6.  The ranking of a set of memories for a query at a time is one
    list, whatever order the memories are handed over in: it holds the
    given memories, highest score first, a tie on the score decided by
    the later created_at and then by the smaller id.  In particular, of
    two memories with tied scores the one created a day later comes
    first.  The scores have to be comparable (no NaN among them) and the
    ids distinct. *)
Theorem ranking_is_deterministic {F : Type} (A : Arith F) (B : Backend F)
  (memories memories' : list (Memory F)) (query : string) (now : datetime) :
  let relevance := fun m => score A B m query now in
  let ranked := rank A B memories query now in
  consistent_order A (map relevance memories) ->
  NoDup (map mem_id memories) ->
  Permutation memories memories' ->
  rank A B memories' query now = ranked
  /\ Permutation ranked memories
  /\ StronglySorted (outranks A relevance) ranked
  /\ (forall a b, In a memories -> In b memories -> a <> b ->
        outranks A relevance a b -> precedes a b ranked)
  /\ (forall a b, In a memories -> In b memories ->
        flt A (relevance a) (relevance b) = false ->
        flt A (relevance b) (relevance a) = false ->
        mem_created_at a = mem_created_at b + microseconds_per_day ->
        precedes a b ranked).
Proof.
  intros relevance ranked Horder Hnd Hperm. unfold rank in *.
  set (scores := map relevance memories) in *.
  assert (Hknown : forall l, Permutation l memories ->
                             Forall (known relevance scores) l).
  { intros l Hl. rewrite Forall_forall. intros x Hx. apply list_elem_of_In in Hx.
    unfold known, scores. apply in_map. eapply Permutation_in; eassumption. }
  assert (Hp : Permutation ranked memories) by apply rank_by_perm.
  assert (Hsorted : StronglySorted (outranks A relevance) ranked).
  { apply (rank_by_sorted A relevance scores Horder). now apply Hknown. }
  assert (Hndr : NoDup (map mem_id ranked)).
  { pose proof (Permutation_map mem_id Hp) as Hm. rewrite Hm. exact Hnd. }
  assert (Hgeneral : forall a b, In a memories -> In b memories -> a <> b ->
            outranks A relevance a b -> precedes a b ranked).
  { intros a b Ha Hb Hne Hab.
    assert (Ha' : In a ranked) by (eapply Permutation_in; [symmetry; exact Hp | exact Ha]).
    assert (Hb' : In b ranked) by (eapply Permutation_in; [symmetry; exact Hp | exact Hb]).
    destruct (precedes_or a b ranked Ha' Hb' Hne) as [H | H]; [exact H|].
    exfalso. pose proof (sorted_precedes _ _ _ _ Hsorted H) as Hba.
    apply Hne. apply (same_id_same_memory memories); auto.
    apply (ranks_before_antisym A relevance scores Horder); auto;
      unfold known, scores; now apply in_map. }
  split; [|split; [exact Hp | split; [exact Hsorted | split; [exact Hgeneral|]]]].
  - symmetry. apply (sorted_perm_unique A relevance scores Horder).
    + now apply Hknown.
    + exact Hndr.
    + exact Hsorted.
    + apply (rank_by_sorted A relevance scores Horder). apply Hknown. now symmetry.
    + rewrite Hp. rewrite Hperm. symmetry. apply rank_by_perm.
  - intros a b Ha Hb Hab Hba Hday. apply Hgeneral; auto.
    + intros ->. unfold microseconds_per_day in Hday. lia.
    + unfold outranks, ranks_before. fold relevance. rewrite Hab, Hba.
      replace (mem_created_at b <? mem_created_at a) with true; [reflexivity|].
      symmetry. apply Z.ltb_lt. unfold microseconds_per_day in Hday. lia.
Qed.

(** Two memories with tied scores, created a day apart, over the
    reals. *)
Lemma ranking_is_deterministic_witness :
  let memories := [older_memory; newer_memory] in
  let relevance := fun m => score real_arith half_backend m "teacher" new_year_2024 in
  let ranked := rank real_arith half_backend memories "teacher" new_year_2024 in
  rank real_arith half_backend [newer_memory; older_memory] "teacher" new_year_2024 = ranked
  /\ Permutation ranked memories
  /\ StronglySorted (outranks real_arith relevance) ranked
  /\ (forall a b, In a memories -> In b memories -> a <> b ->
        outranks real_arith relevance a b -> precedes a b ranked)
  /\ (forall a b, In a memories -> In b memories ->
        flt real_arith (relevance a) (relevance b) = false ->
        flt real_arith (relevance b) (relevance a) = false ->
        mem_created_at a = mem_created_at b + microseconds_per_day ->
        precedes a b ranked).
Proof.
  apply (ranking_is_deterministic real_arith half_backend
           [older_memory; newer_memory] [newer_memory; older_memory]).
  - apply consistent_order_real.
  - simpl. apply NoDup_cons. split; [|apply NoDup_singleton].
    intros H. apply list_elem_of_In in H. simpl in H. lia.
  - apply perm_swap.
Defined.

(** The scenario of the specification in binary64: handed over in either
    order, the memory created a day later is ranked first. *)
Example newer_memory_ranks_first :
  rank (binary64 example_pow) unit_backend [older_memory64; newer_memory64]
    "teacher" new_year_2024 = [newer_memory64; older_memory64]
  /\ rank (binary64 example_pow) unit_backend [newer_memory64; older_memory64]
       "teacher" new_year_2024 = [newer_memory64; older_memory64].
Proof. split; vm_compute; reflexivity. Qed.

(** ** Extraction *)

Section ExtractionFacts.

Context {F : Type} (A : Arith F) (B : Backend F).
Context (extract_facts : Exchange -> list ExtractedFact).
Context (content_hash : string -> Z).
Context (session : Session) (exchange : Exchange).

Lemma dedup_key_new_memory now id f :
  dedup_key content_hash (new_memory A B session exchange now id f)
  = fact_key content_hash exchange f.
Proof. reflexivity. Qed.

Lemma existsb_same_key (c : Memory F) rows :
  existsb (same_key content_hash c) rows = true
  <-> has_key content_hash rows (dedup_key content_hash c).
Proof.
  unfold has_key. rewrite existsb_exists, in_map_iff. unfold same_key.
  split; intros (r & H1 & H2).
  - apply bool_decide_eq_true in H2. eauto.
  - exists r. split; [exact H2|]. apply bool_decide_eq_true. congruence.
Qed.

Lemma persist_cases now (rows created : list (Memory F)) f :
  (has_key content_hash rows (fact_key content_hash exchange f)
   /\ persist A B content_hash session exchange now (rows, created) f = (rows, created))
  \/ (~ has_key content_hash rows (fact_key content_hash exchange f)
      /\ persist A B content_hash session exchange now (rows, created) f
         = (rows ++ [new_memory A B session exchange now (next_id rows) f],
            created ++ [new_memory A B session exchange now (next_id rows) f])).
Proof.
  unfold persist.
  destruct (existsb _ rows) eqn:He.
  - left. split; [|reflexivity]. apply existsb_same_key in He. exact He.
  - right. split; [|reflexivity]. intros Hk.
    apply (existsb_same_key (new_memory A B session exchange now (next_id rows) f)) in Hk.
    congruence.
Qed.

Lemma has_key_app (rows extra : list (Memory F)) k :
  has_key content_hash rows k -> has_key content_hash (rows ++ extra) k.
Proof. unfold has_key. rewrite map_app, in_app_iff. tauto. Qed.

Lemma persist_grows now (state : list (Memory F) * list (Memory F)) f k :
  has_key content_hash (fst state) k ->
  has_key content_hash (fst (persist A B content_hash session exchange now state f)) k.
Proof.
  destruct state as [rows created].
  destruct (persist_cases now rows created f) as [[_ ->] | [_ ->]]; simpl; [tauto|].
  apply has_key_app.
Qed.

Lemma persist_covers now (state : list (Memory F) * list (Memory F)) f :
  has_key content_hash (fst (persist A B content_hash session exchange now state f))
    (fact_key content_hash exchange f).
Proof.
  destruct state as [rows created].
  destruct (persist_cases now rows created f) as [[H ->] | [_ ->]]; simpl; [exact H|].
  unfold has_key. rewrite map_app, in_app_iff. right. simpl. now left.
Qed.

Lemma fold_persist_grows now facts : forall (state : list (Memory F) * list (Memory F)) k,
  has_key content_hash (fst state) k ->
  has_key content_hash
    (fst (fold_left (persist A B content_hash session exchange now) facts state)) k.
Proof.
  induction facts as [|f facts IH]; intros state k Hk; cbn [fold_left]; [exact Hk|].
  apply IH. now apply persist_grows.
Qed.

Lemma fold_persist_covers now facts : forall (state : list (Memory F) * list (Memory F)) f,
  In f facts ->
  has_key content_hash
    (fst (fold_left (persist A B content_hash session exchange now) facts state))
    (fact_key content_hash exchange f).
Proof.
  induction facts as [|g facts IH]; intros state f Hf; cbn [fold_left]; [contradiction|].
  destruct Hf as [-> | Hf]; [|now apply IH].
  apply fold_persist_grows. apply persist_covers.
Qed.

Lemma fold_persist_nothing_new now facts : forall state : list (Memory F) * list (Memory F),
  (forall f, In f facts -> has_key content_hash (fst state) (fact_key content_hash exchange f)) ->
  fold_left (persist A B content_hash session exchange now) facts state = state.
Proof.
  induction facts as [|f facts IH]; intros [rows created] Hall; cbn [fold_left];
    [reflexivity|].
  destruct (persist_cases now rows created f) as [[_ ->] | [Hno _]].
  - apply IH. intros g Hg. apply Hall. now right.
  - exfalso. apply Hno. apply (Hall f). now left.
Qed.

Lemma fold_persist_nodup now facts : forall state : list (Memory F) * list (Memory F),
  NoDup (map (dedup_key content_hash) (fst state)) ->
  NoDup (map (dedup_key content_hash)
           (fst (fold_left (persist A B content_hash session exchange now) facts state))).
Proof.
  induction facts as [|f facts IH]; intros [rows created] Hnd; cbn [fold_left];
    [exact Hnd|].
  apply IH.
  destruct (persist_cases now rows created f) as [[_ ->] | [Hno ->]]; [exact Hnd|].
  cbn [fst]. rewrite map_app. apply NoDup_app. split; [exact Hnd|]. split.
  - intros k Hk Hin. apply list_elem_of_In in Hin. destruct Hin as [Heq | []].
    apply Hno. unfold has_key. apply list_elem_of_In.
    rewrite <- (dedup_key_new_memory now (next_id rows) f), Heq. exact Hk.
  - simpl. apply NoDup_singleton.
Qed.

End ExtractionFacts.

(** C3.  Running [extract] a second time on the same exchange, at any
    later time, leaves the Memory collection exactly as the first run
    left it and creates no row; the number of rows is the same before
    and after the repeated call, and a collection without two rows of
    the same (source_message_id, content_hash) stays without. *)
Theorem extraction_is_idempotent {F : Type} (A : Arith F) (B : Backend F)
  (extract_facts : Exchange -> list ExtractedFact) (content_hash : string -> Z)
  (rows : list (Memory F)) (session : Session) (exchange : Exchange)
  (now later : datetime) :
  let first := extract A B extract_facts content_hash rows session exchange now in
  let second :=
    extract A B extract_facts content_hash (fst first) session exchange later in
  fst second = fst first
  /\ snd second = []
  /\ length (fst second) = length (fst first)
  /\ (NoDup (map (dedup_key content_hash) rows) ->
      NoDup (map (dedup_key content_hash) (fst first))).
Proof.
  cbv zeta. unfold extract.
  set (first := fold_left _ (extract_facts exchange) (rows, [])).
  assert (Hsecond :
    fold_left (persist A B content_hash session exchange later)
      (extract_facts exchange) (fst first, []) = (fst first, [])).
  { apply fold_persist_nothing_new. intros f Hf. cbn [fst].
    unfold first. now apply fold_persist_covers. }
  rewrite Hsecond. cbn [fst snd]. repeat split.
  intros Hnd. unfold first. now apply fold_persist_nodup.
Qed.

(** Three extracted statements, two of them the same: the first run
    writes two rows, the second none. *)
Example sarah_extracted_once :
  let first :=
    extract (binary64 example_pow) unit_backend sarah_facts length_hash
      [] gotham_session sarah_exchange new_year_2024 in
  let second :=
    extract (binary64 example_pow) unit_backend sarah_facts length_hash
      (fst first) gotham_session sarah_exchange (new_year_2024 + 1) in
  map mem_content (fst first) = ["User's name is Sarah"; "User is a teacher"]
  /\ map mem_content (fst second) = ["User's name is Sarah"; "User is a teacher"]
  /\ snd second = [].
Proof. vm_compute. repeat split; reflexivity. Qed.

(** ** The working memory update *)



Example first_three_words :
  first_words 3 "main topics, mood, open questions and plans" = "main topics, mood, "
  /\ word_count "main topics, mood, open questions and plans" = 7.
Proof. vm_compute. split; reflexivity. Qed.


(** At the fifth message the summary is written; one message later
    nothing happens. *)
Example gotham_session_summarised :
  let updated := maybeUpdate canned_summary render_plain gotham_session in
  ses_working_memory updated = "User has been asking about Batman's childhood."
  /\ ses_lastSummarizedAt updated = 5
  /\ maybeUpdate canned_summary render_plain updated = updated.
Proof. vm_compute. repeat split; reflexivity. Qed.

(** ** Further properties of the relevance score *)

Lemma days_shift_week (d : timedelta) :
  days (d + 7 * microseconds_per_day) = days d + 7.
Proof. unfold days. apply Z.div_add. unfold microseconds_per_day. lia. Qed.

Lemma days_mono (d d' : timedelta) : d <= d' -> days d <= days d'.
Proof. intros H. unfold days. apply Z.div_le_mono; [unfold microseconds_per_day; lia|exact H]. Qed.

Lemma days_first_day (d : timedelta) : 0 <= d < microseconds_per_day -> days d = 0.
Proof. intros H. unfold days. apply Z.div_small. exact H. Qed.

Lemma ln_half_neg : (ln (Q2R 0.5) < 0)%R.
Proof.
  rewrite <- ln_1. apply ln_increasing; rewrite Q2R_fraction; lra.
Qed.

Lemma Rpower_half_antitone (x y : R) :
  (x <= y)%R -> (Rpower (Q2R 0.5) y <= Rpower (Q2R 0.5) x)%R.
Proof.
  intros Hxy. unfold Rpower. pose proof ln_half_neg as Hln.
  destruct Hxy as [Hlt | ->]; [|lra].
  left. apply exp_increasing. nra.
Qed.

Lemma Rpower_half_neg (x : R) : (x < 0)%R -> (1 < Rpower (Q2R 0.5) x)%R.
Proof.
  intros Hx. unfold Rpower. pose proof ln_half_neg as Hln.
  rewrite <- exp_0. apply exp_increasing. nra.
Qed.

Lemma Rpower_half_succ (x : R) :
  Rpower (Q2R 0.5) (x + 1) = (Rpower (Q2R 0.5) x / 2)%R.
Proof.
  rewrite Rpower_plus, Rpower_1 by (rewrite Q2R_fraction; lra).
  rewrite Q2R_fraction. lra.
Qed.

(** X1.  Waiting never helps a memory: in exact arithmetic the score
    of a memory for a query at a later time is at most its score at an
    earlier time. *)
Theorem score_never_rises_with_time (B : Backend R) (m : Memory R)
  (query : string) (now later : datetime) :
  now <= later ->
  (score real_arith B m query later <= score real_arith B m query now)%R.
Proof.
  intros Hle. rewrite !score_unfold.
  cbn [fadd fmul fdiv fpow lit of_int real_arith].
  assert (Hd : days (now - mem_last_accessed m) <= days (later - mem_last_accessed m))
    by (apply days_mono; lia).
  apply IZR_le in Hd.
  assert (Hr := Rpower_half_antitone
                  (IZR (days (now - mem_last_accessed m)) / IZR 7)
                  (IZR (days (later - mem_last_accessed m)) / IZR 7)).
  assert (Hq : (0 < Q2R 0.2)%R) by (rewrite Q2R_fraction; lra).
  specialize (Hr ltac:(lra)).
  nra.
Qed.

Lemma score_never_rises_with_time_witness :
  (score real_arith half_backend week_old_memory "detailed answers"
     (new_year_2024 + 3 * microseconds_per_day)%Z
   <= score real_arith half_backend week_old_memory "detailed answers" new_year_2024)%R.
Proof.
  apply (score_never_rises_with_time half_backend week_old_memory).
  unfold new_year_2024, microseconds_per_day. lia.
Defined.

(** X2.  The recency term counts whole days and has a half-life of
    seven of them.  In either arithmetic a memory accessed less than a
    day ago scores as one accessed at this instant.  In exact arithmetic
    seven more days halve the recency term, which lowers the score by a
    tenth of that term. *)
Theorem recency_has_a_half_life_of_a_week {F : Type} (A : Arith F) (B : Backend F)
  (BR : Backend R) (m : Memory F) (mR : Memory R) (query : string) (now : datetime) :
  (0 <= now - mem_last_accessed m < microseconds_per_day ->
   score A B m query now = score A B m query (mem_last_accessed m))
  /\ spec_recency real_arith (now + 7 * microseconds_per_day) (mem_last_accessed mR)
     = (spec_recency real_arith now (mem_last_accessed mR) / 2)%R
  /\ (score real_arith BR mR query now
      - score real_arith BR mR query (now + 7 * microseconds_per_day)%Z
      = spec_recency real_arith now (mem_last_accessed mR) / 10)%R.
Proof.
  assert (Hweek : forall last,
    (IZR (days (now + 7 * microseconds_per_day - last)%Z) / IZR 7
     = IZR (days (now - last)%Z) / IZR 7 + 1)%R).
  { intros last.
    replace (now + 7 * microseconds_per_day - last)
      with (now - last + 7 * microseconds_per_day) by lia.
    rewrite days_shift_week, plus_IZR. lra. }
  split; [|split].
  - intros Hday. rewrite !score_unfold.
    rewrite (days_first_day _ Hday), Z.sub_diag.
    reflexivity.
  - unfold spec_recency. cbn [fadd fmul fdiv fpow lit of_int real_arith].
    rewrite Hweek. apply Rpower_half_succ.
  - rewrite !score_unfold. unfold spec_recency.
    cbn [fadd fmul fdiv fpow lit of_int real_arith].
    rewrite Hweek, Rpower_half_succ.
    set (r := Rpower _ _). rewrite !Q2R_fraction. lra.
Qed.

(** X3.  Of two memories with the same content and the same last
    access, the one with the higher importance and the higher access
    count does not score lower (exact arithmetic).  Beyond ten accesses
    the count no longer matters. *)
Theorem score_grows_with_importance_and_use (B : Backend R) (m m' : Memory R)
  (query : string) (now : datetime) :
  mem_content m' = mem_content m ->
  mem_last_accessed m' = mem_last_accessed m ->
  (mem_importance m <= mem_importance m')%R ->
  mem_access_count m <= mem_access_count m' ->
  (score real_arith B m query now <= score real_arith B m' query now)%R
  /\ (10 <= mem_access_count m -> mem_importance m' = mem_importance m ->
      score real_arith B m' query now = score real_arith B m query now).
Proof.
  intros Hc Hl Hi Ha. rewrite !score_unfold, Hc, Hl.
  cbn [fadd fmul fdiv fpow lit of_int real_arith].
  rewrite !py_min_real.
  set (s := cosine_similarity _ _ _). set (r := Rpower _ _).
  assert (Hq : Q2R 1 = 1%R) by apply RMicromega.Q2R_1.
  pose proof (IZR_le _ _ Ha) as HaR.
  split.
  - assert (Hf : (Rmin (IZR (mem_access_count m) / IZR 10) (Q2R 1)
                  <= Rmin (IZR (mem_access_count m') / IZR 10) (Q2R 1))%R).
    { apply Rle_min_compat_r. lra. }
    rewrite !Q2R_fraction in *. lra.
  - intros H10 ->. pose proof (IZR_le _ _ H10) as H10R.
    rewrite !Rmin_right by (rewrite Hq; lra). reflexivity.
Qed.

Lemma score_grows_with_importance_and_use_witness :
  (score real_arith half_backend week_old_memory "detailed answers" new_year_2024
   <= score real_arith half_backend often_read_memory "detailed answers" new_year_2024)%R
  /\ (10 <= mem_access_count week_old_memory ->
      mem_importance often_read_memory = mem_importance week_old_memory ->
      score real_arith half_backend often_read_memory "detailed answers" new_year_2024
      = score real_arith half_backend week_old_memory "detailed answers" new_year_2024).
Proof.
  apply (score_grows_with_importance_and_use half_backend week_old_memory often_read_memory).
  - reflexivity.
  - reflexivity.
  - simpl. lra.
  - simpl. lia.
Defined.

(** X4.  The age is not clamped at zero.  A memory whose
    [last_accessed] lies after the current time scores strictly higher
    than it does at the instant of its last access, and with similarity
    1, importance 1 and ten accesses its score exceeds 1 in exact
    arithmetic. *)
Theorem future_access_is_not_clamped (B : Backend R) (m : Memory R)
  (query : string) (now : datetime) :
  now - mem_last_accessed m < 0 ->
  (score real_arith B m query (mem_last_accessed m) < score real_arith B m query now)%R
  /\ (cosine_similarity B (embed B (mem_content m)) (embed B query) = 1%R ->
      mem_importance m = 1%R -> 10 <= mem_access_count m ->
      (1 < score real_arith B m query now)%R).
Proof.
  intros Hneg. rewrite !score_unfold.
  cbn [fadd fmul fdiv fpow lit of_int real_arith].
  rewrite !py_min_real, Z.sub_diag.
  assert (Hd : days (now - mem_last_accessed m) <= -1).
  { unfold days.
    assert (now - mem_last_accessed m < microseconds_per_day * 0) by lia.
    assert (0 < microseconds_per_day) by (unfold microseconds_per_day; lia).
    pose proof (Z.div_lt_upper_bound (now - mem_last_accessed m) microseconds_per_day 0).
    lia. }
  apply IZR_le in Hd.
  assert (Hr := Rpower_half_neg (IZR (days (now - mem_last_accessed m)) / IZR 7) ltac:(lra)).
  set (r := Rpower (Q2R 0.5) (IZR (days (now - mem_last_accessed m)) / IZR 7)) in *.
  assert (H0 : Rpower (Q2R 0.5) (IZR (days 0) / IZR 7) = 1%R).
  { change (days 0) with 0. unfold Rdiv. rewrite Rmult_0_l. apply Rpower_O.
    rewrite Q2R_fraction. lra. }
  rewrite H0. split.
  - rewrite !Q2R_fraction. lra.
  - intros -> -> H10. pose proof (IZR_le _ _ H10) as H10R.
    rewrite Rmin_right by (rewrite RMicromega.Q2R_1; lra).
    rewrite RMicromega.Q2R_1, !Q2R_fraction. lra.
Qed.

Lemma future_access_is_not_clamped_witness :
  (score real_arith half_backend postdated_memory "sister"
     (mem_last_accessed postdated_memory)
   < score real_arith half_backend postdated_memory "sister" new_year_2024)%R
  /\ (cosine_similarity half_backend (embed half_backend (mem_content postdated_memory))
        (embed half_backend "sister") = 1%R ->
      mem_importance postdated_memory = 1%R -> 10 <= mem_access_count postdated_memory ->
      (1 < score real_arith half_backend postdated_memory "sister" new_year_2024)%R).
Proof.
  apply (future_access_is_not_clamped half_backend postdated_memory).
  vm_compute. reflexivity.
Defined.

(** ** Further properties of the context assembly *)

(** X5.  The last-session summary is part of the context if and only
    if [get_last_session_summary] returns a non-empty string; it is then
    the third entry, "Last conversation: " followed by the summary.  The
    budget handed to [get_recent_messages] is 3000 less 200 for the
    summary and less 300 for the working memory, and the context has
    four entries plus one for each of the two. *)
Theorem episodic_section_rule {F : Type} (svc : Stores F)
  (session : ActiveSession) (user_id character current_message : string) :
  let sections := assemble_sections svc session user_id character current_message in
  let last_session := get_last_session_summary svc user_id character in
  (In EpisodicMemory (map label sections) <->
   exists summary, last_session = Some summary /\ summary <> "")
  /\ (forall summary, last_session = Some summary -> summary <> "" ->
      sections !! 2%nat = Some (MkSection EpisodicMemory ("Last conversation: " +:+ summary)))
  /\ buffer_budget svc session user_id character current_message
     = 3000 - (match truthy last_session with Some _ => 200 | None => 0 end)
            - (if 10 <? session_message_count session then 300 else 0)
  /\ length sections
     = (4 + (match truthy last_session with Some _ => 1 | None => 0 end)
          + (if (10 <? session_message_count session)%Z then 1 else 0))%nat.
Proof.
  cbv zeta. rewrite assemble_sections_shape, buffer_budget_value.
  unfold episodic_part, working_part.
  destruct (get_last_session_summary svc user_id character) as [[|c s]|] eqn:Hs;
    cbn [truthy]; destruct (10 <? session_message_count session);
    (split; [|split; [|split]]); try reflexivity;
    try (intros summary [= <-] Hne; first [reflexivity | congruence]);
    try (intros summary [=]);
    cbn [app map label In]; split;
    try (intros _; eexists; split; [reflexivity|discriminate]);
    try (intros; tauto);
    try (intros H; exfalso; intuition congruence);
    try (intros (summary & [= <-] & Hne); congruence);
    try (intros (summary & [=] & _)).
Qed.

(** X6.  [current_message] is used for the memory search only: two
    calls that differ in the message give the same budget and the same
    entries except for the one of step 4. *)
Theorem only_retrieval_reads_the_message {F : Type} (svc : Stores F)
  (session : ActiveSession) (user_id character message message' : string) :
  buffer_budget svc session user_id character message
  = buffer_budget svc session user_id character message'
  /\ exists before after,
       ~ In LongTermMemory (map label (before ++ after))
       /\ assemble_sections svc session user_id character message
          = before
            ++ [MkSection LongTermMemory
                  (format_memories svc (semantic_search svc message user_id character 5))]
            ++ after
       /\ assemble_sections svc session user_id character message'
          = before
            ++ [MkSection LongTermMemory
                  (format_memories svc (semantic_search svc message' user_id character 5))]
            ++ after.
Proof.
  rewrite !assemble_sections_shape, !buffer_budget_value. split; [reflexivity|].
  eexists ([_; _] ++ episodic_part svc user_id character), (working_part svc session ++ [_]).
  split; [|split]; cycle 1.
  - rewrite <- !app_assoc. reflexivity.
  - rewrite <- !app_assoc. reflexivity.
  - unfold episodic_part, working_part.
    destruct (truthy _); destruct (10 <? _); cbn; intuition congruence.
Qed.

(** ** The chat store: sessions, replies and their bookkeeping *)

Lemma on_request_sessions i f rt :
  (forall r st, sessions (f r st) = sessions st) ->
  sessions (store (on_request i f rt)) = sessions (store rt).
Proof.
  intros Hf. unfold on_request. destruct (pending rt !! i); [apply Hf | reflexivity].
Qed.

Lemma step_sessions_other rt e key :
  touched_key rt e <> Some key ->
  sessions (store (step rt e)) !! key = sessions (store rt) !! key.
Proof.
  destruct e as [c fresh now | cid fresh now | message t1 t2 | now | i chunk | i status
                | i done t1 t2 | i]; cbn [step touched_key]; intros Hk.
  - unfold on_store, setCharacter, loadCharacterSession; cbn.
    destruct (sessions (store rt) !! name c); cbn; [reflexivity|].
    apply lookup_insert_ne. congruence.
  - unfold on_store, loadCharacterSession; cbn.
    destruct (sessions (store rt) !! cid); cbn; [reflexivity|].
    apply lookup_insert_ne. congruence.
  - destruct (sendMessage message t1 t2 rt) as [rt'|] eqn:Hs; [|reflexivity].
    apply sendMessage_spec in Hs. destruct Hs as (before & ch & Hcur & _ & ->).
    rewrite Hcur in Hk. cbn in *. apply lookup_insert_ne. congruence.
  - unfold on_store, clearCurrentChat; cbn.
    destruct (currentSession (store rt)) as [cur|]; cbn in *; [|reflexivity].
    apply lookup_insert_ne. congruence.
  - now rewrite on_request_sessions.
  - now rewrite on_request_sessions.
  - unfold on_request. destruct (pending rt !! i) as [r|]; cbn in *; [|reflexivity].
    apply lookup_insert_ne. congruence.
  - now rewrite on_request_sessions.
Qed.

Lemma step_sessions_kept rt e key :
  is_Some (sessions (store rt) !! key) ->
  is_Some (sessions (store (step rt e)) !! key).
Proof.
  intros Hsome.
  destruct (decide (touched_key rt e = Some key)) as [Hk|Hk];
    [|now rewrite step_sessions_other].
  destruct e as [c fresh now | cid fresh now | message t1 t2 | now | i chunk | i status
                | i done t1 t2 | i]; cbn [step touched_key] in *; try discriminate.
  - injection Hk as <-. unfold on_store, setCharacter, loadCharacterSession; cbn.
    destruct (sessions (store rt) !! name c) eqn:Hl; cbn; [now rewrite Hl|].
    rewrite lookup_insert_eq. eauto.
  - injection Hk as <-. unfold on_store, loadCharacterSession; cbn.
    destruct (sessions (store rt) !! cid) eqn:Hl; cbn; [now rewrite Hl|].
    rewrite lookup_insert_eq. eauto.
  - destruct (sendMessage message t1 t2 rt) as [rt'|] eqn:Hs; [|exact Hsome].
    apply sendMessage_spec in Hs. destruct Hs as (before & ch & Hcur & _ & ->).
    rewrite Hcur in Hk. cbn in *. injection Hk as <-. rewrite lookup_insert_eq. eauto.
  - unfold on_store, clearCurrentChat; cbn.
    destruct (currentSession (store rt)) as [cur|]; cbn in *; [|exact Hsome].
    injection Hk as <-. rewrite lookup_insert_eq. eauto.
  - unfold on_request. destruct (pending rt !! i) as [r|]; cbn in *; [|exact Hsome].
    injection Hk as <-. rewrite lookup_insert_eq. eauto.
Qed.

Lemma run_sessions_kept events : forall rt key,
  is_Some (sessions (store rt) !! key) ->
  is_Some (sessions (store (run rt events)) !! key).
Proof.
  induction events as [|e events IH]; intros rt key H; [exact H|].
  cbn [run fold_left]. apply IH. now apply step_sessions_kept.
Qed.

(** X7.  Every store action and stream callback leaves the sessions
    of all characters other than the one it writes to untouched, and no
    sequence of them removes a session from the store. *)
Theorem sessions_isolated_and_kept (rt : Runtime) (key : string) :
  (forall e, touched_key rt e <> Some key ->
     sessions (store (step rt e)) !! key = sessions (store rt) !! key)
  /\ (forall events, is_Some (sessions (store rt) !! key) ->
        is_Some (sessions (store (run rt events)) !! key)).
Proof.
  split.
  - intros e. apply step_sessions_other.
  - intros events. apply run_sessions_kept.
Qed.

Lemma keyed_set_session (st : ChatState) (s : ChatSession) :
  (forall key s', sessions st !! key = Some s' -> characterId s' = key) ->
  (forall key s', sessions (set_session (characterId s) s st) !! key = Some s' ->
     characterId s' = key)
  /\ sessions (set_session (characterId s) s st) !! characterId s = Some s.
Proof.
  intros Hk. cbn. split; [|apply lookup_insert_eq].
  intros key s' H. destruct (decide (characterId s = key)) as [<-|Hne].
  - rewrite lookup_insert_eq in H. congruence.
  - rewrite lookup_insert_ne in H by assumption. eauto.
Qed.

Lemma keyed_loadCharacterSession cid fresh now rt :
  keyed rt -> keyed (on_store (loadCharacterSession cid fresh now) rt).
Proof.
  intros (Hk & Hc & Hp). unfold keyed, on_store, loadCharacterSession. cbn [store pending].
  destruct (sessions (store rt) !! cid) as [existing|] eqn:Hl.
  - cbn. split; [exact Hk|]. split; [|exact Hp].
    intros s [= <-]. rewrite (Hk _ _ Hl). exact Hl.
  - set (new := MkChatSession cid cid fresh [] now 0 0 true).
    destruct (keyed_set_session (store rt) new Hk) as [H1 H2].
    split; [exact H1|]. split; [|exact Hp]. cbn. intros s [= <-]. apply lookup_insert_eq.
Qed.

Lemma step_keyed rt e : keyed rt -> keyed (step rt e).
Proof.
  intros Hkeyed. pose proof Hkeyed as (Hk & Hc & Hp).
  destruct e as [c fresh now | cid fresh now | message t1 t2 | now | i chunk | i status
                | i done t1 t2 | i]; cbn [step].
  - unfold setCharacter.
    apply (keyed_loadCharacterSession (name c) fresh now
             (MkRuntime (MkChatState (Some c) (currentSession (store rt))
                (sessions (store rt)) (isTyping (store rt)) (streamingContent (store rt))
                (statusMessage (store rt)) None) (pending rt))).
    exact Hkeyed.
  - now apply keyed_loadCharacterSession.
  - destruct (sendMessage message t1 t2 rt) as [rt'|] eqn:Hs; [|exact Hkeyed].
    apply sendMessage_spec in Hs. destruct Hs as (before & ch & Hcur & _ & ->).
    cbv zeta. set (after := MkChatSession _ _ _ _ _ _ _ _).
    assert (Hid : characterId after = characterId before) by reflexivity.
    unfold keyed. cbn [store pending]. rewrite <- Hid.
    destruct (keyed_set_session (set_ui true "" "" None (store rt)) after Hk) as [H1 H2].
    split; [exact H1|]. split.
    + cbn. intros s [= <-]. apply lookup_insert_eq.
    + intros r Hr. apply in_app_iff in Hr. destruct Hr as [Hr | [<- | []]]; [auto|].
      reflexivity.
  - unfold on_store, clearCurrentChat. 
    destruct (currentSession (store rt)) as [cur|] eqn:Hcur; [|exact Hkeyed].
    set (cleared := MkChatSession _ _ _ _ _ _ _ _).
    assert (Hid : characterId cleared = characterId cur) by reflexivity.
    unfold keyed. cbn [store pending]. rewrite <- Hid.
    destruct (keyed_set_session (store rt) cleared Hk) as [H1 H2].
    split; [exact H1|]. split; [|exact Hp].
    cbn. intros s [= <-]. apply lookup_insert_eq.
  - unfold on_request. destruct (pending rt !! i); exact Hkeyed.
  - unfold on_request. destruct (pending rt !! i); exact Hkeyed.
  - unfold on_request. destruct (pending rt !! i) as [r|] eqn:Hi; [|exact Hkeyed].
    assert (Hr : In r (pending rt)).
    { apply list_elem_of_In. eapply list_elem_of_lookup_2. exact Hi. }
    unfold on_store, onDone. cbn [store pending].
    set (final := MkChatSession _ _ _ _ _ _ _ _).
    assert (Hid : characterId final = characterId (req_currentSession r)).
    { cbn. apply Hp. exact Hr. }
    unfold keyed. cbn [store pending]. rewrite <- Hid.
    destruct (keyed_set_session (store rt) final Hk) as [H1 H2].
    split; [exact H1|]. split; [|exact Hp].
    cbn. intros s [= <-]. apply lookup_insert_eq.
  - unfold on_request. destruct (pending rt !! i); exact Hkeyed.
Qed.

Lemma run_keyed events : forall rt, keyed rt -> keyed (run rt events).
Proof.
  induction events as [|e events IH]; intros rt H; [exact H|].
  cbn [run fold_left]. apply IH. now apply step_keyed.
Qed.

Lemma empty_runtime_keyed : keyed empty_runtime.
Proof.
  split; [|split].
  - intros key s H. cbn in H. rewrite lookup_empty in H. discriminate.
  - intros s H. discriminate.
  - intros r [].
Qed.

(** X8.  From a store in which every session is filed under its own
    [characterId] and the current session is the stored one, every trace
    that loads no name inherited from [Object.prototype] leads to such a
    store: [getCharacterMessages] of the current character returns the
    current session's messages. *)
Theorem current_session_is_the_stored_one (rt0 : Runtime) (events : list Event) :
  keyed rt0 ->
  forallb ordinary events = true ->
  let st := store (run rt0 events) in
  (forall key s, sessions st !! key = Some s -> characterId s = key)
  /\ (forall s, currentSession st = Some s ->
        sessions st !! characterId s = Some s
        /\ getCharacterMessages (characterId s) st = messages s).
Proof.
  intros H0 _ st. destruct (run_keyed events rt0 H0) as (Hk & Hc & _).
  split; [exact Hk|]. intros s Hs. split; [now apply Hc|].
  unfold getCharacterMessages. subst st. now rewrite (Hc s Hs).
Qed.

Lemma current_session_is_the_stored_one_witness :
  let st := store (run empty_runtime first_exchange) in
  (forall key s, sessions st !! key = Some s -> characterId s = key)
  /\ (forall s, currentSession st = Some s ->
        sessions st !! characterId s = Some s
        /\ getCharacterMessages (characterId s) st = messages s).
Proof.
  apply (current_session_is_the_stored_one empty_runtime first_exchange).
  - apply empty_runtime_keyed.
  - vm_compute. reflexivity.
Defined.

(** *** Streaming *)

Lemma append_assoc (a b c : string) : (a +:+ b) +:+ c = a +:+ (b +:+ c).
Proof.
  induction a as [|x a IH].
  - reflexivity.
  - change (String x ((a +:+ b) +:+ c) = String x (a +:+ (b +:+ c))). now rewrite IH.
Qed.
Lemma append_empty_r (a : string) : a +:+ "" = a.
Proof.
  induction a as [|x a IH]; [reflexivity|].
  change (String x (a +:+ "") = String x a). now rewrite IH.
Qed.
Lemma concat_empty_cons (c : string) (chunks : list string) :
  String.concat "" (c :: chunks) = c +:+ String.concat "" chunks.
Proof.
  destruct chunks as [|d chunks]; [symmetry; apply append_empty_r | reflexivity].
Qed.

Lemma run_app rt l1 l2 : run rt (l1 ++ l2) = run (run rt l1) l2.
Proof. unfold run. apply fold_left_app. Qed.

Lemma run_chunks (i : nat) (chunks : list string) : forall rt,
  is_Some (pending rt !! i) ->
  let st := store (run rt (map (StreamChunk i) chunks)) in
  pending (run rt (map (StreamChunk i) chunks)) = pending rt
  /\ streamingContent st = streamingContent (store rt) +:+ String.concat "" chunks
  /\ currentCharacter st = currentCharacter (store rt)
  /\ currentSession st = currentSession (store rt)
  /\ sessions st = sessions (store rt)
  /\ isTyping st = isTyping (store rt)
  /\ statusMessage st = statusMessage (store rt)
  /\ error st = error (store rt).
Proof.
  induction chunks as [|c chunks IH]; intros rt [r Hr]; cbv zeta.
  - cbn. rewrite append_empty_r. repeat split.
  - cbn [map run fold_left]. fold (run (step rt (StreamChunk i c)) (map (StreamChunk i) chunks)).
    assert (Hstep : step rt (StreamChunk i c) = on_store (onChunk c) rt).
    { cbn [step]. unfold on_request. now rewrite Hr. }
    rewrite Hstep.
    destruct (IH (on_store (onChunk c) rt)) as (H1 & H2 & H3 & H4 & H5 & H6 & H7 & H8).
    { cbn. eauto. }
    rewrite H1, H2, H3, H4, H5, H6, H7, H8.
    cbn [on_store store pending onChunk set_ui streamingContent currentCharacter
         currentSession sessions isTyping statusMessage error].
    rewrite concat_empty_cons, append_assoc. repeat split.
Qed.

(** X9.  One complete exchange.  After [sendMessage], the chunks of
    the reply and the done event, the character's messages are the
    earlier ones, the user's message and one assistant message whose
    content is the concatenation of the chunks; the session is no longer
    new, and the store is no longer typing and shows no error. *)
Theorem streamed_reply_is_appended (rt : Runtime) (before : ChatSession)
  (character : Character) (message : string) (chunks : list string)
  (done : DonePayload) (t1 t2 t3 t4 : instant) :
  currentSession (store rt) = Some before ->
  currentCharacter (store rt) = Some character ->
  let i := length (pending rt) in
  let events :=
    SendMessage message t1 t2 :: map (StreamChunk i) chunks ++ [StreamDone i done t3 t4] in
  let st := store (run rt events) in
  getCharacterMessages (characterId before) st
    = messages before ++
      [ MkChatMessage message role_user t1 (Some (name character));
        MkChatMessage (String.concat "" chunks) role_assistant t3 (Some (name character)) ]
  /\ (exists s, currentSession st = Some s
        /\ sessions st !! characterId before = Some s
        /\ isNewSession s = false)
  /\ isTyping st = false
  /\ streamingContent st = ""
  /\ error st = None.
Proof.
  intros Hcur Hchar i events st. subst st events.
  cbn [run fold_left]. fold (run (step rt (SendMessage message t1 t2))
                               (map (StreamChunk i) chunks ++ [StreamDone i done t3 t4])).
  rewrite run_app.
  set (rt1 := step rt (SendMessage message t1 t2)).
  assert (Hrt1 : exists after,
    rt1 = MkRuntime
            (set_session (characterId before) after (set_ui true "" "" None (store rt)))
            (pending rt ++ [MkRequest character before after])
    /\ messages after =
       messages before ++ [MkChatMessage message role_user t1 (Some (name character))]
    /\ characterId after = characterId before).
  { subst rt1. cbn [step]. unfold sendMessage. rewrite Hcur, Hchar.
    eexists. split; [reflexivity|]. split; reflexivity. }
  destruct Hrt1 as (after & Hrt1 & Hmsgs & Hid).
  assert (Hi : pending rt1 !! i = Some (MkRequest character before after)).
  { rewrite Hrt1. cbn [pending]. subst i. 
    rewrite lookup_app_r by lia. now rewrite Nat.sub_diag. }
  destruct (run_chunks i chunks rt1 (ex_intro _ _ Hi))
    as (H1 & H2 & H3 & H4 & H5 & H6 & H7 & H8).
  set (rt2 := run rt1 (map (StreamChunk i) chunks)) in *.
  cbn [run fold_left step]. unfold on_request. rewrite H1, Hi.
  unfold on_store, onDone, getCharacterMessages.
  cbn [store set_ui set_session sessions currentSession isTyping streamingContent error
       req_updatedSession req_currentSession req_currentCharacter].
  rewrite lookup_insert_eq. cbn [messages isNewSession].
  rewrite H2, H8, Hmsgs, Hrt1. cbn [store set_session set_ui streamingContent error].
  rewrite <- app_assoc. cbn [app String.append].
  split; [reflexivity|]. split; [eexists; split; [reflexivity|]; split; reflexivity|].
  repeat split.
Qed.

Lemma streamed_reply_is_appended_witness :
  let events :=
    SendMessage "What drives you to fight crime?" 1704067205000 1704067205000
    :: map (StreamChunk (length (pending batman_selected)))
         ["The night "; "my parents died."]
    ++ [StreamDone (length (pending batman_selected))
          (MkDone (Some "srv-42") (Some 3) (Some 512)) 1704067207500 1704067207501] in
  let st := store (run batman_selected events) in
  getCharacterMessages (characterId batman_session) st
    = messages batman_session ++
      [ MkChatMessage "What drives you to fight crime?" role_user 1704067205000
          (Some (name batman));
        MkChatMessage (String.concat "" ["The night "; "my parents died."]) role_assistant
          1704067207500 (Some (name batman)) ]
  /\ (exists s, currentSession st = Some s
        /\ sessions st !! characterId batman_session = Some s
        /\ isNewSession s = false)
  /\ isTyping st = false
  /\ streamingContent st = ""
  /\ error st = None.
Proof.
  apply (streamed_reply_is_appended batman_selected batman_session batman).
  - reflexivity.
  - reflexivity.
Defined.

(** *** Two requests in flight *)

(** X11.  The done callback appends to the session its request took
    along.  With two messages sent before the first reply is done, the
    first reply removes the second user message from the stored list and
    the second reply then removes the first reply. *)
Theorem reply_replaces_later_messages (rt : Runtime) (before : ChatSession)
  (character : Character) (m1 m2 : string) (done1 done2 : DonePayload)
  (t1 t2 t3 t4 t5 t6 t7 t8 : instant) :
  currentSession (store rt) = Some before ->
  currentCharacter (store rt) = Some character ->
  let i := length (pending rt) in
  let u1 := MkChatMessage m1 role_user t1 (Some (name character)) in
  let u2 := MkChatMessage m2 role_user t3 (Some (name character)) in
  let a1 := MkChatMessage "" role_assistant t5 (Some (name character)) in
  let a2 := MkChatMessage "" role_assistant t7 (Some (name character)) in
  let sent := [SendMessage m1 t1 t2; SendMessage m2 t3 t4] in
  let key := characterId before in
  getCharacterMessages key (store (run rt sent)) = messages before ++ [u1; u2]
  /\ getCharacterMessages key (store (run rt (sent ++ [StreamDone i done1 t5 t6])))
     = messages before ++ [u1; a1]
  /\ getCharacterMessages key
       (store (run rt (sent ++ [StreamDone i done1 t5 t6; StreamDone (S i) done2 t7 t8])))
     = messages before ++ [u1; u2; a2].
Proof.
  intros Hcur Hchar i u1 u2 a1 a2 sent key. subst sent.
  assert (H1 : exists after1,
    step rt (SendMessage m1 t1 t2)
    = MkRuntime
        (set_session key after1 (set_ui true "" "" None (store rt)))
        (pending rt ++ [MkRequest character before after1])
    /\ messages after1 = messages before ++ [u1] /\ characterId after1 = key).
  { cbn [step]. unfold sendMessage. rewrite Hcur, Hchar.
    eexists. split; [reflexivity|]. split; reflexivity. }
  destruct H1 as (after1 & Hs1 & Hm1 & Hk1).
  set (rt1 := step rt (SendMessage m1 t1 t2)) in *.
  assert (H2 : exists after2,
    step rt1 (SendMessage m2 t3 t4)
    = MkRuntime
        (set_session key after2 (set_ui true "" "" None (store rt1)))
        (pending rt1 ++ [MkRequest character after1 after2])
    /\ messages after2 = messages after1 ++ [u2] /\ characterId after2 = key).
  { cbn [step]. unfold sendMessage. rewrite Hs1. cbn [store set_session set_ui
      currentSession currentCharacter]. rewrite Hchar, Hk1.
    eexists. split; [reflexivity|]. split; reflexivity. }
  destruct H2 as (after2 & Hs2 & Hm2 & Hk2).
  set (rt2 := step rt1 (SendMessage m2 t3 t4)) in *.
  assert (Hp2 : pending rt2
                = pending rt ++ [MkRequest character before after1;
                                 MkRequest character after1 after2]).
  { rewrite Hs2, Hs1. cbn [pending]. now rewrite <- app_assoc. }
  assert (Hi : pending rt2 !! i = Some (MkRequest character before after1)).
  { rewrite Hp2. subst i. rewrite lookup_app_r by lia. now rewrite Nat.sub_diag. }
  assert (HSi : pending rt2 !! S i = Some (MkRequest character after1 after2)).
  { rewrite Hp2. subst i. rewrite lookup_app_r by lia.
    now replace (S (length (pending rt)) - length (pending rt))%nat with 1%nat by lia. }
  assert (Hstream : streamingContent (store rt2) = "").
  { rewrite Hs2. reflexivity. }
  split; [|split].
  - cbn [run fold_left]. fold rt1. fold rt2. rewrite Hs2. unfold getCharacterMessages.
    cbn [store set_session sessions]. rewrite lookup_insert_eq, Hm2, Hm1.
    now rewrite <- app_assoc.
  - cbn [run fold_left app]. fold rt1. fold rt2. cbn [step]. unfold on_request.
    rewrite Hi. unfold on_store, onDone, getCharacterMessages.
    cbn [store set_ui set_session sessions req_updatedSession req_currentSession
         req_currentCharacter].
    replace (characterId before) with key by reflexivity.
    rewrite lookup_insert_eq. cbn [messages]. rewrite Hm1, Hstream.
    now rewrite <- app_assoc.
  - cbn [run fold_left app]. fold rt1. fold rt2.
    set (rt3 := step rt2 (StreamDone i done1 t5 t6)).
    assert (H3 : pending rt3 = pending rt2 /\ streamingContent (store rt3) = "").
    { subst rt3. cbn [step]. unfold on_request. rewrite Hi. split; reflexivity. }
    destruct H3 as [Hp3 Hstream3].
    cbn [step]. unfold on_request. rewrite Hp3, HSi.
    unfold on_store, onDone, getCharacterMessages.
    cbn [store set_ui set_session sessions req_updatedSession req_currentSession
         req_currentCharacter].
    rewrite Hk1. rewrite lookup_insert_eq. cbn [messages].
    rewrite Hm2, Hm1, Hstream3. now rewrite <- !app_assoc.
Qed.

Lemma reply_replaces_later_messages_witness :
  let u1 := MkChatMessage "Who are you?" role_user 2000 (Some (name batman)) in
  let u2 := MkChatMessage "Where is Alfred?" role_user 3000 (Some (name batman)) in
  let a1 := MkChatMessage "" role_assistant 4000 (Some (name batman)) in
  let a2 := MkChatMessage "" role_assistant 5000 (Some (name batman)) in
  let sent := [SendMessage "Who are you?" 2000 2000; SendMessage "Where is Alfred?" 3000 3000] in
  let first_done := StreamDone (length (pending batman_selected)) (MkDone None None None) 4000 4000 in
  let second_done :=
    StreamDone (S (length (pending batman_selected))) (MkDone None None None) 5000 5000 in
  let key := characterId batman_session in
  getCharacterMessages key (store (run batman_selected sent))
    = messages batman_session ++ [u1; u2]
  /\ getCharacterMessages key (store (run batman_selected (sent ++ [first_done])))
     = messages batman_session ++ [u1; a1]
  /\ getCharacterMessages key
       (store (run batman_selected (sent ++ [first_done; second_done])))
     = messages batman_session ++ [u1; u2; a2].
Proof.
  apply (reply_replaces_later_messages batman_selected batman_session batman).
  - reflexivity.
  - reflexivity.
Defined.

(** *** A reply that arrives after another character was selected *)

Lemma setCharacter_current (c : Character) fresh now (st : ChatState) :
  (forall key s, sessions st !! key = Some s -> characterId s = key) ->
  currentCharacter (setCharacter c fresh now st) = Some c
  /\ exists s, currentSession (setCharacter c fresh now st) = Some s
       /\ characterId s = name c
       /\ sessions (setCharacter c fresh now st) !! name c = Some s
       /\ (forall key, key <> name c ->
             sessions (setCharacter c fresh now st) !! key = sessions st !! key).
Proof.
  intros Hk. unfold setCharacter, loadCharacterSession. cbn [sessions].
  destruct (sessions st !! name c) as [existing|] eqn:Hl.
  - cbn. split; [reflexivity|]. exists existing. split; [reflexivity|].
    split; [now apply Hk|]. split; [exact Hl|]. reflexivity.
  - cbn. split; [reflexivity|]. eexists. split; [reflexivity|]. split; [reflexivity|].
    split; [apply lookup_insert_eq|]. intros key Hne. now apply lookup_insert_ne.
Qed.

(** X12.  A reply that is done after another character was selected
    makes the earlier character's session the current one while the
    current character stays the newly selected one: the next message is
    filed under the earlier character, carrying the new character's
    name, and the new character's session does not change. *)
Theorem late_reply_changes_current_session (rt : Runtime) (a b : Character)
  (fresh_a fresh_b message next : string) (done : DonePayload)
  (t1 t2 t3 t4 t5 t6 t7 t8 : instant) :
  keyed rt ->
  name a <> name b ->
  let i := length (pending rt) in
  let events :=
    [ SetCharacter a fresh_a t1; SendMessage message t2 t3;
      SetCharacter b fresh_b t4; StreamDone i done t5 t6 ] in
  let st := store (run rt events) in
  let st' := store (run rt (events ++ [SendMessage next t7 t8])) in
  currentCharacter st = Some b
  /\ (exists s, currentSession st = Some s /\ characterId s = name a)
  /\ sessions st' !! name b = sessions st !! name b
  /\ (exists s', sessions st' !! name a = Some s'
        /\ last (messages s') = Some (MkChatMessage next role_user t7 (Some (name b)))).
Proof.
  intros Hkeyed Hab i events st st'. subst st st' events.
  pose proof Hkeyed as (Hk & _ & _).
  (* the character a is selected *)
  set (rt1 := step rt (SetCharacter a fresh_a t1)).
  destruct (setCharacter_current a fresh_a t1 (store rt) Hk)
    as (Hc1 & sa & Hs1 & Hida & _).
  assert (Hp1 : pending rt1 = pending rt) by reflexivity.
  (* the message is sent *)
  assert (H2 : exists after,
    step rt1 (SendMessage message t2 t3)
    = MkRuntime
        (set_session (name a) after (set_ui true "" "" None (store rt1)))
        (pending rt ++ [MkRequest a sa after])
    /\ characterId after = name a).
  { cbn [step]. unfold sendMessage. subst rt1. cbn [step on_store store pending].
    rewrite Hs1, Hc1, Hida. eexists. split; reflexivity. }
  destruct H2 as (after & Hs2 & Hidafter).
  set (rt2 := step rt1 (SendMessage message t2 t3)) in *.
  (* the character b is selected *)
  set (rt3 := step rt2 (SetCharacter b fresh_b t4)).
  assert (Hk2 : forall key s, sessions (store rt2) !! key = Some s -> characterId s = key).
  { apply (step_keyed rt1 (SendMessage message t2 t3)).
    apply (step_keyed rt (SetCharacter a fresh_a t1)). exact Hkeyed. }
  destruct (setCharacter_current b fresh_b t4 (store rt2) Hk2)
    as (Hc3 & sb & Hs3 & Hidb & Hlb & _).
  assert (Hp3 : pending rt3 !! i = Some (MkRequest a sa after)).
  { subst rt3. cbn [step on_store pending]. rewrite Hs2. cbn [pending]. subst i.
    rewrite lookup_app_r by lia. now rewrite Nat.sub_diag. }
  (* the reply to the first message arrives *)
  set (rt4 := step rt3 (StreamDone i done t5 t6)).
  assert (H4 : exists final,
    store rt4 = set_ui false "" "" (error (store rt3))
                  (set_session (name a) final (store rt3))
    /\ characterId final = name a /\ pending rt4 = pending rt3).
  { subst rt4. cbn [step]. unfold on_request. rewrite Hp3.
    unfold on_store, onDone. cbn [store pending req_currentSession req_updatedSession].
    rewrite Hida. eexists. split; [reflexivity|]. split; [exact Hidafter | reflexivity]. }
  destruct H4 as (final & Hst4 & Hidfinal & Hp4).
  assert (Hrun4 : run rt [SetCharacter a fresh_a t1; SendMessage message t2 t3;
                          SetCharacter b fresh_b t4; StreamDone i done t5 t6] = rt4)
    by reflexivity.
  rewrite run_app, Hrun4.
  split; [|split; [|split]].
  - rewrite Hst4. cbn [set_ui set_session currentCharacter]. exact Hc3.
  - exists final. rewrite Hst4. split; [reflexivity | exact Hidfinal].
  - cbn [run fold_left step]. unfold sendMessage. rewrite Hst4.
    cbn [set_ui set_session currentSession currentCharacter store sessions].
    fold rt3. change (currentCharacter (store rt3)) with
      (currentCharacter (setCharacter b fresh_b t4 (store rt2))).
    rewrite Hc3. cbn [store set_ui set_session sessions]. rewrite Hidfinal.
    rewrite !lookup_insert_ne by assumption. reflexivity.
  - cbn [run fold_left step]. unfold sendMessage. rewrite Hst4.
    cbn [set_ui set_session currentSession currentCharacter store sessions].
    change (currentCharacter (store rt3)) with
      (currentCharacter (setCharacter b fresh_b t4 (store rt2))).
    rewrite Hc3. cbn [store set_ui set_session sessions]. rewrite Hidfinal.
    rewrite lookup_insert_eq. eexists. split; [reflexivity|].
    cbn [messages]. apply last_snoc.
Qed.

Lemma late_reply_changes_current_session_witness :
  let events :=
    [ SetCharacter batman "session_1" 1000; SendMessage "Who are you?" 2000 2000;
      SetCharacter alfred "session_2" 3000; StreamDone 0 (MkDone None None None) 4000 4000 ] in
  let st := store (run empty_runtime events) in
  let st' := store (run empty_runtime (events ++ [SendMessage "Tea, please" 5000 5000])) in
  currentCharacter st = Some alfred
  /\ (exists s, currentSession st = Some s /\ characterId s = name batman)
  /\ sessions st' !! name alfred = sessions st !! name alfred
  /\ (exists s', sessions st' !! name batman = Some s'
        /\ last (messages s')
           = Some (MkChatMessage "Tea, please" role_user 5000 (Some (name alfred)))).
Proof.
  apply (late_reply_changes_current_session empty_runtime batman alfred).
  - apply empty_runtime_keyed.
  - vm_compute. congruence.
Defined.

(** *** Clearing and loading *)

(** X13.  [clearCurrentChat] does nothing without a current session.
    Otherwise it empties the current session, keeps its ids, resets its
    statistics to zero, stores it under its character, clears the error
    and leaves every other session and the typing state as they were. *)
Theorem clearCurrentChat_resets_one_session (st : ChatState) (now : instant) :
  (currentSession st = None -> clearCurrentChat now st = st)
  /\ (forall current, currentSession st = Some current ->
      let st' := clearCurrentChat now st in
      currentSession st'
        = Some (MkChatSession (characterId current) (characterName current)
                  (sessionId current) [] now 0 0 true)
      /\ sessions st' !! characterId current = currentSession st'
      /\ getCharacterMessages (characterId current) st' = []
      /\ getSessionStats (characterId current) st' = MkStats 0 0 0
      /\ (forall key, key <> characterId current ->
            sessions st' !! key = sessions st !! key
            /\ getSessionStats key st' = getSessionStats key st)
      /\ error st' = None
      /\ isTyping st' = isTyping st
      /\ streamingContent st' = streamingContent st).
Proof.
  split.
  - intros H. unfold clearCurrentChat. now rewrite H.
  - intros current H. cbv zeta. unfold clearCurrentChat, getCharacterMessages, getSessionStats.
    rewrite H. cbn [set_ui set_session currentSession sessions error isTyping streamingContent].
    rewrite lookup_insert_eq. cbn.
    repeat split; rewrite lookup_insert_ne by congruence; reflexivity.
Qed.

(** X14.  For a character id that is no name inherited from
    [Object.prototype], [loadCharacterSession] makes an existing session
    current without changing the stored sessions, creates an empty new
    session only when the character has none, never touches another
    character's session, and loading the same character again changes
    nothing. *)
Theorem loadCharacterSession_keeps_history (st : ChatState) (characterId : string)
  (fresh_id : string) (now : instant) :
  inherited characterId = false ->
  let st' := loadCharacterSession characterId fresh_id now st in
  (forall existing, sessions st !! characterId = Some existing ->
     currentSession st' = Some existing /\ sessions st' = sessions st)
  /\ (sessions st !! characterId = None ->
      currentSession st'
        = Some (MkChatSession characterId characterId fresh_id [] now 0 0 true)
      /\ sessions st' !! characterId = currentSession st')
  /\ (forall key, key <> characterId -> sessions st' !! key = sessions st !! key)
  /\ (forall fresh_id' now', loadCharacterSession characterId fresh_id' now' st' = st').
Proof.
  intros _. cbv zeta. unfold loadCharacterSession.
  destruct (sessions st !! characterId) as [existing|] eqn:Hl.
  - cbn [sessions currentSession]. rewrite Hl. repeat split; congruence.
  - cbn [set_session sessions currentSession]. rewrite lookup_insert_eq.
    split; [discriminate|]. split; [intros _; split; reflexivity|].
    split; [intros key Hne; now apply lookup_insert_ne|]. reflexivity.
Qed.

(** Alfred is selected for the first time after the exchange with
    Batman. *)
Lemma loadCharacterSession_keeps_history_witness :
  let st := store (run empty_runtime first_exchange) in
  let st' := loadCharacterSession "Alfred" "session_1704067300000_p0o9i8u7y" 1704067300000 st in
  (forall existing, sessions st !! "Alfred" = Some existing ->
     currentSession st' = Some existing /\ sessions st' = sessions st)
  /\ (sessions st !! "Alfred" = None ->
      currentSession st'
        = Some (MkChatSession "Alfred" "Alfred" "session_1704067300000_p0o9i8u7y" []
                  1704067300000 0 0 true)
      /\ sessions st' !! "Alfred" = currentSession st')
  /\ (forall key, key <> "Alfred" -> sessions st' !! key = sessions st !! key)
  /\ (forall fresh_id' now', loadCharacterSession "Alfred" fresh_id' now' st' = st').
Proof.
  apply (loadCharacterSession_keeps_history (store (run empty_runtime first_exchange))
           "Alfred").
  vm_compute. reflexivity.
Defined.

Lemma progress_step rt e :
  reports_progress e = true ->
  pending (step rt e) = pending rt
  /\ isTyping (store (step rt e)) = isTyping (store rt)
  /\ error (store (step rt e)) = error (store rt)
  /\ sessions (store (step rt e)) = sessions (store rt)
  /\ currentSession (store (step rt e)) = currentSession (store rt).
Proof.
  destruct e; cbn [reports_progress]; try discriminate; intros _;
    cbn [step]; unfold on_request; destruct (pending rt !! request); repeat split.
Qed.

Lemma progress_run events : forall rt,
  forallb reports_progress events = true ->
  pending (run rt events) = pending rt
  /\ isTyping (store (run rt events)) = isTyping (store rt)
  /\ error (store (run rt events)) = error (store rt)
  /\ sessions (store (run rt events)) = sessions (store rt)
  /\ currentSession (store (run rt events)) = currentSession (store rt).
Proof.
  induction events as [|e events IH]; intros rt Hall; [repeat split|].
  cbn [forallb] in Hall. apply andb_true_iff in Hall. destruct Hall as [He Hall].
  cbn [run fold_left]. fold (run (step rt e) events).
  destruct (IH (step rt e) Hall) as (H1 & H2 & H3 & H4 & H5).
  destruct (progress_step rt e He) as (G1 & G2 & G3 & G4 & G5).
  rewrite H1, H2, H3, H4, H5. repeat split; assumption.
Qed.

(** X10.  Chunks and status events alone never end a reply: after
    [sendMessage] and any number of them the store is still typing, shows
    no error, the request is still pending and the character's messages
    end with the user's message. *)
Theorem progress_events_never_finish (rt : Runtime) (before : ChatSession)
  (character : Character) (message : string) (t1 t2 : instant) (events : list Event) :
  currentSession (store rt) = Some before ->
  currentCharacter (store rt) = Some character ->
  forallb reports_progress events = true ->
  let st := store (run rt (SendMessage message t1 t2 :: events)) in
  isTyping st = true
  /\ error st = None
  /\ getCharacterMessages (characterId before) st
     = messages before ++ [MkChatMessage message role_user t1 (Some (name character))]
  /\ length (pending (run rt (SendMessage message t1 t2 :: events)))
     = S (length (pending rt)).
Proof.
  intros Hcur Hchar Hall. cbv zeta. cbn [run fold_left].
  fold (run (step rt (SendMessage message t1 t2)) events).
  destruct (progress_run events (step rt (SendMessage message t1 t2)) Hall)
    as (H1 & H2 & H3 & H4 & H5).
  unfold getCharacterMessages. rewrite H1, H2, H3, H4.
  cbn [step]. unfold sendMessage. rewrite Hcur, Hchar.
  cbn [store pending set_session set_ui isTyping error sessions].
  rewrite lookup_insert_eq, length_app. cbn. repeat split. lia.
Qed.

Lemma progress_events_never_finish_witness :
  let events :=
    [ SendMessage "What drives you to fight crime?" 1704067205000 1704067205000;
      StreamStatus 0 "Starting conversation..."; StreamChunk 0 "The night ";
      StreamChunk 0 "my parents died." ] in
  let st := store (run batman_selected events) in
  isTyping st = true
  /\ error st = None
  /\ getCharacterMessages (characterId batman_session) st
     = messages batman_session
       ++ [MkChatMessage "What drives you to fight crime?" role_user 1704067205000
             (Some (name batman))]
  /\ length (pending (run batman_selected events)) = S (length (pending batman_selected)).
Proof.
  apply (progress_events_never_finish batman_selected batman_session batman).
  - reflexivity.
  - reflexivity.
  - reflexivity.
Defined.

(** *** One reply at a time *)

Lemma getCharacterMessages_same key st st' :
  sessions st' !! key = sessions st !! key ->
  exists suffix, getCharacterMessages key st' = getCharacterMessages key st ++ suffix.
Proof.
  intros H. exists []. unfold getCharacterMessages. rewrite H. now rewrite app_nil_r.
Qed.

Lemma loadCharacterSession_grows cid fresh now st key :
  exists suffix,
    getCharacterMessages key (loadCharacterSession cid fresh now st)
    = getCharacterMessages key st ++ suffix.
Proof.
  unfold loadCharacterSession. destruct (sessions st !! cid) eqn:Hl.
  - now apply getCharacterMessages_same.
  - destruct (decide (key = cid)) as [->|Hne].
    + exists []. unfold getCharacterMessages. cbn [set_session sessions].
      now rewrite lookup_insert_eq, Hl.
    + apply getCharacterMessages_same. cbn [set_session sessions].
      now apply lookup_insert_ne.
Qed.

Lemma in_turn_step rt e :
  keyed rt -> awaited_is_stored rt -> in_turn rt e = true ->
  awaited_is_stored (step rt e)
  /\ forall key, exists suffix,
       getCharacterMessages key (store (step rt e))
       = getCharacterMessages key (store rt) ++ suffix.
Proof.
  intros Hkeyed Hawait Hturn.
  destruct e as [c fresh now | cid fresh now | message t1 t2 | now | i chunk | i status
                | i done t1 t2 | i]; cbn [in_turn] in Hturn; try discriminate.
  - apply negb_true_iff in Hturn. split.
    + intros Htyping. exfalso. revert Htyping. cbn [step on_store store].
      unfold setCharacter, loadCharacterSession. cbn.
      destruct (sessions (store rt) !! name c); cbn; congruence.
    + intros key. cbn [step on_store store]. unfold setCharacter.
      destruct (loadCharacterSession_grows (name c) fresh now
        {| currentCharacter := Some c; currentSession := currentSession (store rt);
           sessions := sessions (store rt); isTyping := isTyping (store rt);
           streamingContent := streamingContent (store rt);
           statusMessage := statusMessage (store rt); error := None |} key)
        as [suffix Hs].
      exists suffix. exact Hs.
  - apply negb_true_iff in Hturn. split.
    + intros Htyping. exfalso. revert Htyping. cbn [step on_store store].
      unfold loadCharacterSession.
      destruct (sessions (store rt) !! cid); cbn; congruence.
    + intros key. cbn [step on_store store]. apply loadCharacterSession_grows.
  - apply negb_true_iff in Hturn. cbn [step].
    destruct (sendMessage message t1 t2 rt) as [rt'|] eqn:Hs.
    + apply sendMessage_spec in Hs. destruct Hs as (before & ch & Hcur & Hch & ->).
      destruct Hkeyed as (_ & Hstored & _). specialize (Hstored before Hcur).
      split.
      * intros _. eexists. cbn [pending store]. rewrite last_snoc. split; [reflexivity|].
        cbn [req_currentSession req_updatedSession set_session sessions].
        now rewrite lookup_insert_eq.
      * intros key. cbn [store]. destruct (decide (key = characterId before)) as [->|Hne].
        -- eexists. unfold getCharacterMessages. cbn [set_session sessions].
           rewrite lookup_insert_eq. cbn [set_ui sessions]. rewrite Hstored.
           cbn [messages]. reflexivity.
        -- apply getCharacterMessages_same. cbn [set_session set_ui sessions].
           now apply lookup_insert_ne.
    + split; [exact Hawait|]. intros key. now apply getCharacterMessages_same.
  - apply andb_true_iff in Hturn. destruct Hturn as [Htyping _].
    cbn [step]. unfold on_request. destruct (pending rt !! i) as [r|];
      [|split; [exact Hawait | intros key; now apply getCharacterMessages_same]].
    split; [|intros key; now apply getCharacterMessages_same].
    intros _. exact (Hawait Htyping).
  - apply andb_true_iff in Hturn. destruct Hturn as [Htyping _].
    cbn [step]. unfold on_request. destruct (pending rt !! i) as [r|];
      [|split; [exact Hawait | intros key; now apply getCharacterMessages_same]].
    split; [|intros key; now apply getCharacterMessages_same].
    intros _. exact (Hawait Htyping).
  - apply andb_true_iff in Hturn. destruct Hturn as [Htyping Hi].
    apply bool_decide_eq_true in Hi.
    destruct (Hawait Htyping) as (r & Hlast & Hstored).
    assert (Hr : pending rt !! i = Some r).
    { rewrite last_lookup in Hlast. rewrite <- Hi in Hlast. exact Hlast. }
    cbn [step]. unfold on_request. rewrite Hr. split.
    + intros Hfalse. cbn in Hfalse. discriminate.
    + intros key. cbn [on_store store]. unfold onDone.
      destruct (decide (key = characterId (req_currentSession r))) as [->|Hne].
      * eexists. unfold getCharacterMessages. cbn [set_ui set_session sessions].
        rewrite lookup_insert_eq, Hstored. cbn [messages]. reflexivity.
      * apply getCharacterMessages_same. cbn [set_ui set_session sessions].
        now apply lookup_insert_ne.
  - cbn [step]. unfold on_request. destruct (pending rt !! i) as [r|];
      [|split; [exact Hawait | intros key; now apply getCharacterMessages_same]].
    split; [|intros key; now apply getCharacterMessages_same].
    intros Hfalse. cbn in Hfalse. discriminate.
Qed.

Lemma one_at_a_time_run events : forall rt,
  keyed rt -> awaited_is_stored rt -> one_at_a_time rt events = true ->
  forall key, exists suffix,
    getCharacterMessages key (store (run rt events))
    = getCharacterMessages key (store rt) ++ suffix.
Proof.
  induction events as [|e events IH]; intros rt Hkeyed Hawait Hturn key.
  - exists []. now rewrite app_nil_r.
  - cbn [one_at_a_time] in Hturn. apply andb_true_iff in Hturn.
    destruct Hturn as [He Hrest].
    destruct (in_turn_step rt e Hkeyed Hawait He) as [Hawait' Hgrow].
    destruct (Hgrow key) as [suffix1 H1].
    destruct (IH (step rt e) (step_keyed rt e Hkeyed) Hawait' Hrest key) as [suffix2 H2].
    exists (suffix1 ++ suffix2). cbn [run fold_left]. fold (run (step rt e) events).
    now rewrite H2, H1, app_assoc.
Qed.

(** X20.  Used one reply at a time, the store loses no message.  From a
    store that awaits no reply and files its sessions under their
    characters, along every trace in which messages are sent and
    characters selected only while no reply is awaited, the chat is not
    cleared and the callbacks are those of the request sent last, the
    messages stored for a character only grow at the end. *)
Theorem one_reply_at_a_time_loses_nothing (rt : Runtime) (events : list Event) :
  keyed rt ->
  isTyping (store rt) = false ->
  one_at_a_time rt events = true ->
  forall key, exists suffix,
    getCharacterMessages key (store (run rt events))
    = getCharacterMessages key (store rt) ++ suffix.
Proof.
  intros Hkeyed Hidle Hturn. apply one_at_a_time_run; [exact Hkeyed| |exact Hturn].
  intros Htyping. congruence.
Qed.

Lemma one_reply_at_a_time_loses_nothing_witness :
  exists suffix,
    getCharacterMessages "Batman" (store (run empty_runtime first_exchange))
    = getCharacterMessages "Batman" (store empty_runtime) ++ suffix.
Proof.
  apply (one_reply_at_a_time_loses_nothing empty_runtime first_exchange).
  - apply empty_runtime_keyed.
  - reflexivity.
  - vm_compute. reflexivity.
Defined.

(** X21.  Clearing the chat while a reply is awaited is undone by the
    reply: the done callback stores the session its request took along,
    so the messages cleared before come back, followed by the user's
    message and the reply. *)
Theorem clear_during_reply_is_undone (rt : Runtime) (before : ChatSession)
  (character : Character) (message : string) (done : DonePayload)
  (t1 t2 t3 t4 t5 : instant) :
  currentSession (store rt) = Some before ->
  currentCharacter (store rt) = Some character ->
  let cleared := run rt [SendMessage message t1 t2; ClearCurrentChat t3] in
  let replied := step cleared (StreamDone (length (pending rt)) done t4 t5) in
  getCharacterMessages (characterId before) (store cleared) = []
  /\ getCharacterMessages (characterId before) (store replied)
     = messages before ++
       [ MkChatMessage message role_user t1 (Some (name character));
         MkChatMessage "" role_assistant t4 (Some (name character)) ].
Proof.
  intros Hcur Hchar. cbv zeta. cbn [run fold_left step].
  unfold sendMessage. rewrite Hcur, Hchar.
  unfold on_store, clearCurrentChat. cbn [store pending set_session set_ui currentSession].
  split.
  - unfold getCharacterMessages. cbn [set_ui set_session sessions characterId].
    now rewrite lookup_insert_eq.
  - unfold on_request. cbn [pending].
    rewrite lookup_app_r by lia. rewrite Nat.sub_diag. cbn [lookup list_lookup].
    unfold on_store, onDone, getCharacterMessages.
    cbn [store set_ui set_session sessions req_currentSession req_updatedSession
         req_currentCharacter characterId messages streamingContent].
    rewrite lookup_insert_eq. cbn [messages]. now rewrite <- app_assoc.
Qed.

Lemma clear_during_reply_is_undone_witness :
  let cleared :=
    run batman_selected [SendMessage "Who are you?" 2000 2000; ClearCurrentChat 3000] in
  let replied :=
    step cleared (StreamDone (length (pending batman_selected)) (MkDone None None None)
                    4000 4000) in
  getCharacterMessages (characterId batman_session) (store cleared) = []
  /\ getCharacterMessages (characterId batman_session) (store replied)
     = messages batman_session ++
       [ MkChatMessage "Who are you?" role_user 2000 (Some (name batman));
         MkChatMessage "" role_assistant 4000 (Some (name batman)) ].
Proof.
  apply (clear_during_reply_is_undone batman_selected batman_session batman).
  - reflexivity.
  - reflexivity.
Defined.

(** *** The statistics a reply reports *)

(** X22.  The done callback counts the reply and takes over the numbers
    the server reports, except that a missing or zero count keeps the
    count the session had when the message was sent, and a missing or
    empty session id keeps the session id. *)
Theorem done_keeps_counts_when_zero (rt : Runtime) (i : nat) (r : Request)
  (done : DonePayload) (t1 t2 : instant) :
  pending rt !! i = Some r ->
  let st := store (step rt (StreamDone i done t1 t2)) in
  let key := characterId (req_currentSession r) in
  let stats := getSessionStats key st in
  stat_messages stats = Z.of_nat (length (messages (req_updatedSession r))) + 1
  /\ (done_memories_used done = None \/ done_memories_used done = Some 0 ->
      stat_memories stats = memoriesUsed (req_currentSession r))
  /\ (forall n, done_memories_used done = Some n -> n <> 0 -> stat_memories stats = n)
  /\ (done_tokens_used done = None \/ done_tokens_used done = Some 0 ->
      stat_tokens stats = tokensUsed (req_currentSession r))
  /\ (forall n, done_tokens_used done = Some n -> n <> 0 -> stat_tokens stats = n)
  /\ (exists s, sessions st !! key = Some s
        /\ (done_session_id done = None \/ done_session_id done = Some "" ->
            sessionId s = sessionId (req_currentSession r))
        /\ (forall id, done_session_id done = Some id -> id <> "" -> sessionId s = id)).
Proof.
  intros Hr. cbv zeta. cbn [step]. unfold on_request. rewrite Hr.
  unfold on_store, onDone, getSessionStats.
  cbn [store set_ui set_session sessions]. rewrite lookup_insert_eq.
  cbn [fmap option_fmap option_map stat_messages stat_memories stat_tokens
       messages memoriesUsed tokensUsed sessionId].
  assert (Hor : forall n, or_number (Some n) 0 = n).
  { intros n. cbn [or_number]. destruct (Z.eqb_spec n 0); congruence. }
  rewrite !Hor, length_app. cbn [length].
  split; [lia|]. split; [|split; [|split; [|split]]].
  - intros [-> | ->]; reflexivity.
  - intros n -> Hn. cbn [or_number]. destruct (Z.eqb_spec n 0); [contradiction | reflexivity].
  - intros [-> | ->]; reflexivity.
  - intros n -> Hn. cbn [or_number]. destruct (Z.eqb_spec n 0); [contradiction | reflexivity].
  - eexists. split; [reflexivity|]. cbn [sessionId]. split.
    + intros [-> | ->]; reflexivity.
    + intros id -> Hid. unfold or_string. destruct id; [congruence | reflexivity].
Qed.

Lemma done_keeps_counts_when_zero_witness :
  let rt := run batman_selected [SendMessage "Who are you?" 2000 2000] in
  let r := MkRequest batman batman_session
             (MkChatSession "Batman" "Batman" "session_1704067200000_k3j9x2m1q"
                [MkChatMessage "Who are you?" role_user 2000 (Some "Batman")]
                2000 0 0 true) in
  let done := MkDone (Some "") (Some 0) (Some 512) in
  let st := store (step rt (StreamDone 0 done 4000 4000)) in
  let key := characterId (req_currentSession r) in
  let stats := getSessionStats key st in
  stat_messages stats = Z.of_nat (length (messages (req_updatedSession r))) + 1
  /\ (done_memories_used done = None \/ done_memories_used done = Some 0 ->
      stat_memories stats = memoriesUsed (req_currentSession r))
  /\ (forall n, done_memories_used done = Some n -> n <> 0 -> stat_memories stats = n)
  /\ (done_tokens_used done = None \/ done_tokens_used done = Some 0 ->
      stat_tokens stats = tokensUsed (req_currentSession r))
  /\ (forall n, done_tokens_used done = Some n -> n <> 0 -> stat_tokens stats = n)
  /\ (exists s, sessions st !! key = Some s
        /\ (done_session_id done = None \/ done_session_id done = Some "" ->
            sessionId s = sessionId (req_currentSession r))
        /\ (forall id, done_session_id done = Some id -> id <> "" -> sessionId s = id)).
Proof.
  apply (done_keeps_counts_when_zero
           (run batman_selected [SendMessage "Who are you?" 2000 2000]) 0).
  reflexivity.
Defined.

(** *** Recent chats *)

Lemma insert_by_activity_perm a l : Permutation (insert_by_activity a l) (a :: l).
Proof.
  induction l as [|b l IH]; cbn [insert_by_activity]; [reflexivity|].
  destruct (lastActivity b - lastActivity a <=? 0); [reflexivity|].
  rewrite IH. apply perm_swap.
Qed.

Lemma sort_by_activity_perm l : Permutation (sort_by_activity l) l.
Proof.
  induction l as [|a l IH]; cbn [sort_by_activity fold_right]; [reflexivity|].
  fold (sort_by_activity l). rewrite insert_by_activity_perm. now constructor.
Qed.

Lemma insert_by_activity_sorted a l :
  StronglySorted later_first l -> StronglySorted later_first (insert_by_activity a l).
Proof.
  induction l as [|b l IH]; intros Hs; cbn [insert_by_activity].
  - repeat constructor.
  - inversion Hs as [|? ? Hs' Hb]; subst.
    destruct (lastActivity b - lastActivity a <=? 0) eqn:Hc.
    + apply Z.leb_le in Hc. constructor; [exact Hs|]. constructor; [unfold later_first; lia|].
      eapply Forall_impl; [exact Hb|]. unfold later_first. intros; cbn in *; lia.
    + apply Z.leb_gt in Hc. constructor; [auto|].
      rewrite Forall_forall. intros y Hy. apply list_elem_of_In in Hy.
      apply (Permutation_in _ (insert_by_activity_perm a l)) in Hy.
      destruct Hy as [<- | Hy]; [unfold later_first; lia|].
      rewrite Forall_forall in Hb. apply Hb. now apply list_elem_of_In.
Qed.

Lemma sort_by_activity_sorted l : StronglySorted later_first (sort_by_activity l).
Proof.
  induction l as [|a l IH]; cbn [sort_by_activity fold_right]; [constructor|].
  now apply insert_by_activity_sorted.
Qed.

Lemma sorted_app_order {X} (R : X -> X -> Prop) (l1 l2 : list X) :
  StronglySorted R (l1 ++ l2) ->
  StronglySorted R l1 /\ forall a b, In a l1 -> In b l2 -> R a b.
Proof.
  induction l1 as [|x l1 IH]; cbn [app]; intros Hs.
  - split; [constructor | intros a b []].
  - inversion Hs as [|? ? Hs' Hx]; subst. destruct (IH Hs') as [H1 H2].
    rewrite Forall_forall in Hx. split.
    + constructor; [exact H1|]. rewrite Forall_forall. intros y Hy. apply Hx.
      apply list_elem_of_In in Hy. apply list_elem_of_In. apply in_or_app. now left.
    + intros a b [<- | Ha] Hb; [|now apply H2].
      apply Hx. apply list_elem_of_In, in_or_app. now right.
Qed.

Lemma recent_of_spec (values : list ChatSession) :
  let recent := recent_of values in
  (length recent <= 10)%nat
  /\ (forall s, In s recent -> In s values /\ messages s <> [])
  /\ StronglySorted (fun x y => lastActivity y <= lastActivity x) recent
  /\ exists rest,
       Permutation (recent ++ rest) (List.filter has_messages values)
       /\ ((length recent < 10)%nat -> rest = [])
       /\ forall r x, In r recent -> In x rest -> lastActivity x <= lastActivity r.
Proof.
  cbv zeta. unfold recent_of.
  set (kept := List.filter has_messages values).
  pose proof (sort_by_activity_sorted kept) as Hsorted.
  pose proof (sort_by_activity_perm kept) as Hperm.
  rewrite <- (firstn_skipn 10 (sort_by_activity kept)) in Hsorted.
  apply sorted_app_order in Hsorted. destruct Hsorted as [Hs1 Hs2].
  split; [apply firstn_le_length|]. split; [|split; [exact Hs1|]].
  - intros s Hs.
    assert (Hk : In s kept).
    { apply (Permutation_in _ Hperm).
      rewrite <- (firstn_skipn 10 (sort_by_activity kept)). apply in_or_app. now left. }
    apply filter_In in Hk. destruct Hk as [Hin Hm]. split; [exact Hin|].
    unfold has_messages in Hm. apply Z.ltb_lt in Hm. intros Hnil. rewrite Hnil in Hm.
    cbn in Hm. lia.
  - exists (skipn 10 (sort_by_activity kept)). split; [|split; [|exact Hs2]].
    + now rewrite firstn_skipn.
    + intros Hlen. rewrite length_firstn in Hlen.
      apply skipn_all2. lia.
Qed.

Lemma In_session_values (st : ChatState) (s : ChatSession) :
  In s (map snd (map_to_list (sessions st))) <-> exists key, sessions st !! key = Some s.
Proof.
  rewrite in_map_iff. split.
  - intros ([key s'] & Hsnd & Hin). cbn in Hsnd. subst s'. exists key.
    apply elem_of_map_to_list. now apply list_elem_of_In.
  - intros (key & Hkey). exists (key, s). split; [reflexivity|].
    apply list_elem_of_In. now apply elem_of_map_to_list.
Qed.

(** X15.  [getRecentChats] returns at most ten stored sessions, each
    with at least one message, the latest activity first; a stored
    session with messages that is left out is not more recent than any
    session returned, and nothing is left out while fewer than ten are
    returned. *)
Theorem recent_chats_are_the_latest (st : ChatState) :
  let recent := getRecentChats st in
  (length recent <= 10)%nat
  /\ (forall s, In s recent ->
        messages s <> [] /\ exists key, sessions st !! key = Some s)
  /\ StronglySorted later_first recent
  /\ (forall key x, sessions st !! key = Some x -> messages x <> [] ->
        In x recent
        \/ (length recent = 10%nat
            /\ forall r, In r recent -> lastActivity x <= lastActivity r)).
Proof.
  cbv zeta. unfold getRecentChats.
  destruct (recent_of_spec (map snd (map_to_list (sessions st))))
    as (Hlen & Hin & Hsorted & rest & Hperm & Hshort & Horder).
  split; [exact Hlen|]. split; [|split; [exact Hsorted|]].
  - intros s Hs. destruct (Hin s Hs) as [Hv Hm]. split; [exact Hm|].
    now apply In_session_values.
  - intros key x Hkey Hne.
    assert (Hx : In x (List.filter has_messages (map snd (map_to_list (sessions st))))).
    { apply filter_In. split; [apply In_session_values; now exists key|].
      unfold has_messages. apply Z.ltb_lt. destruct (messages x); [congruence|cbn; lia]. }
    apply (Permutation_in _ (Permutation_sym Hperm)) in Hx.
    apply in_app_or in Hx. destruct Hx as [Hx | Hx]; [now left|]. right.
    split.
    + destruct (Nat.eq_dec (length (recent_of (map snd (map_to_list (sessions st))))) 10%nat)
        as [Heq | Hneq]; [exact Heq|].
      rewrite Hshort in Hx by lia. destruct Hx.
    + intros r Hr. now apply (Horder r x).
Qed.

(** X16.  For every session [getRecentChats] returns, the recent
    characters panel finds a last message.  Its preview is the first 50
    UTF-16 code units of the content, followed by "..." exactly when the
    content has more than 50 code units: the whole content when it has
    at most 50, and never more than 53 code units.  The message count
    shown is at least one. *)
Theorem recent_character_has_last_message (st : ChatState) (s : ChatSession) :
  In s (getRecentChats st) ->
  exists m,
    last (messages s) = Some m
    /\ rc_lastMessage (recent_character s)
       = firstn 50 (utf16 (content m)) ++
         (if (50 <? length (utf16 (content m)))%nat then utf16 "..." else [])
    /\ ((length (utf16 (content m)) <= 50)%nat ->
        rc_lastMessage (recent_character s) = utf16 (content m))
    /\ (length (rc_lastMessage (recent_character s)) <= 53)%nat
    /\ 1 <= rc_messageCount (recent_character s).
Proof.
  intros Hs. unfold getRecentChats in Hs.
  destruct (recent_of_spec (map snd (map_to_list (sessions st)))) as (_ & Hne & _).
  destruct (Hne s Hs) as [_ Hmsgs].
  destruct (last (messages s)) as [m|] eqn:Hlast.
  - exists m. unfold recent_character. cbn [rc_lastMessage rc_messageCount].
    rewrite Hlast. cbn [preview]. split; [reflexivity|]. split; [reflexivity|].
    split; [|split].
    + intros Hshort.
      destruct (Nat.ltb_spec 50 (length (utf16 (content m)))) as [Hlong|_]; [lia|].
      rewrite app_nil_r. apply firstn_all2. exact Hshort.
    + assert (Hdots : length (utf16 "...") = 3%nat) by (vm_compute; reflexivity).
      rewrite length_app, length_firstn.
      destruct (50 <? length (utf16 (content m)))%nat; [rewrite Hdots|cbn [length]]; lia.
    + destruct (messages s); [congruence | cbn [length]; lia].
  - apply last_None in Hlast. contradiction.
Qed.

Lemma recent_character_has_last_message_witness :
  let s := batman_after_first_exchange in
  exists m,
    last (messages s) = Some m
    /\ rc_lastMessage (recent_character s)
       = firstn 50 (utf16 (content m)) ++
         (if (50 <? length (utf16 (content m)))%nat then utf16 "..." else [])
    /\ ((length (utf16 (content m)) <= 50)%nat ->
        rc_lastMessage (recent_character s) = utf16 (content m))
    /\ (length (rc_lastMessage (recent_character s)) <= 53)%nat
    /\ 1 <= rc_messageCount (recent_character s).
Proof.
  apply (recent_character_has_last_message (store (run empty_runtime first_exchange))).
  vm_compute. left. reflexivity.
Defined.

(** Code units, not bytes: thirty accented letters take sixty bytes and
    thirty code units, and are shown whole. *)
Lemma accented_preview_is_not_cut :
  String.length accented_text = 60%nat
  /\ length (utf16 accented_text) = 30%nat
  /\ preview (Some (MkChatMessage accented_text role_assistant 0 None))
     = repeat 233%N 30.
Proof. vm_compute. repeat split; reflexivity. Qed.

(** ** The reader of the event stream *)

Lemma split_lines_nonempty s : split_lines s <> [].
Proof.
  destruct s as [|c s]; cbn [split_lines]; [discriminate|].
  destruct (Ascii.eqb c LF); [discriminate|]. destruct (split_lines s); discriminate.
Qed.

Lemma removelast_cons {X} (x : X) (l : list X) :
  l <> [] -> removelast (x :: l) = x :: removelast l.
Proof. destruct l; [congruence | reflexivity]. Qed.

Lemma last_cons {X} (x : X) (l : list X) : l <> [] -> last (x :: l) = last l.
Proof. destruct l; [congruence | reflexivity]. Qed.

Lemma split_lines_app (a b : string) :
  exists tail,
    last (split_lines a) = Some tail
    /\ split_lines (a +:+ b) = removelast (split_lines a) ++ split_lines (tail +:+ b).
Proof.
  induction a as [|c a (tail & Hlast & IH)].
  - exists "". split; reflexivity.
  - change (String c a +:+ b) with (String c (a +:+ b)). cbn [split_lines].
    destruct (Ascii.eqb c LF) eqn:Hc.
    + exists tail. rewrite last_cons by apply split_lines_nonempty.
      split; [exact Hlast|].
      rewrite removelast_cons by apply split_lines_nonempty. cbn [app]. now rewrite IH.
    + rewrite IH. destruct (split_lines a) as [|p ps] eqn:Ha;
        [now apply split_lines_nonempty in Ha|].
      destruct ps as [|q ps].
      * cbn in Hlast. injection Hlast as <-. exists (String c p). split; [reflexivity|].
        cbn [removelast app]. change (String c p +:+ b) with (String c (p +:+ b)).
        cbn [split_lines]. now rewrite Hc.
      * exists tail. split.
        -- rewrite last_cons by discriminate. rewrite last_cons in Hlast by discriminate.
           exact Hlast.
        -- rewrite !removelast_cons by discriminate. reflexivity.
Qed.

Lemma or_string_some (s : string) : or_string (Some s) "" = s.
Proof. destruct s; reflexivity. Qed.

Lemma last_default {X} (l : list X) (x d : X) : last l = Some x -> List.last l d = x.
Proof.
  induction l as [|y l IH]; [discriminate|]. destruct l as [|z l].
  - now intros [= ->].
  - intros H. apply IH. exact H.
Qed.

Lemma split_lines_tail (s tail : string) :
  last (split_lines s) = Some tail -> split_lines tail = [tail].
Proof.
  revert tail. induction s as [|c s IH]; intros tail.
  - cbn. now intros [= <-].
  - cbn [split_lines]. destruct (Ascii.eqb c LF) eqn:Hc.
    + rewrite last_cons by apply split_lines_nonempty. apply IH.
    + destruct (split_lines s) as [|p ps] eqn:Hs; [now apply split_lines_nonempty in Hs|].
      destruct ps as [|q ps].
      * cbn. intros [= <-]. cbn [split_lines]. rewrite Hc.
        now rewrite (IH p eq_refl).
      * rewrite last_cons by discriminate. intros H. apply IH.
        now rewrite last_cons by discriminate.
Qed.

Lemma last_any_default {X} (l : list X) (d d' : X) :
  l <> [] -> List.last l d = List.last l d'.
Proof.
  induction l as [|x l IH]; [congruence|]. intros _.
  destruct l as [|y l]; [reflexivity|]. apply IH. discriminate.
Qed.

Section StreamFacts.

Context (handlers : Handlers) (json_parse : string -> option SseData).

Lemma read_loop_spec (values : list string) : forall buffer,
  split_lines buffer = [buffer] ->
  read_loop handlers json_parse buffer values
  = (List.last (split_lines (buffer +:+ String.concat "" values)) "",
     flat_map (on_line handlers json_parse)
       (removelast (split_lines (buffer +:+ String.concat "" values)))).
Proof.
  induction values as [|value rest IH]; intros buffer Hbuffer.
  - cbn [read_loop String.concat]. rewrite append_empty_r, Hbuffer. reflexivity.
  - cbn [read_loop]. unfold read_value.
    destruct (split_lines_app (buffer +:+ value) (String.concat "" rest))
      as (tail & Hlast & Hsplit).
    rewrite Hlast, or_string_some.
    rewrite (IH tail (split_lines_tail _ _ Hlast)).
    rewrite concat_empty_cons, <- append_assoc, Hsplit.
    rewrite removelast_app by apply split_lines_nonempty.
    rewrite flat_map_app, last_app_default.
    f_equal. apply last_any_default. apply split_lines_nonempty.
Qed.

End StreamFacts.

(** X17.  The reader of the event stream handles the complete lines
    of the text received so far, whatever the pieces it arrived in: the
    callbacks are those of the lines before the last line feed, in
    order, and the text after the last line feed stays in the buffer and
    is never handled when the stream ends. *)
Theorem stream_lines_ignore_chunking (handlers : Handlers)
  (json_parse : string -> option SseData) (values : list string) :
  let text := String.concat "" values in
  read_loop handlers json_parse "" values
  = (List.last (split_lines text) "",
     flat_map (on_line handlers json_parse) (removelast (split_lines text)))
  /\ (forall values', String.concat "" values' = text ->
        read_loop handlers json_parse "" values'
        = read_loop handlers json_parse "" values)
  /\ read_loop handlers json_parse "" [text]
     = read_loop handlers json_parse "" values.
Proof.
  cbv zeta.
  assert (H : forall vs, read_loop handlers json_parse "" vs
    = (List.last (split_lines (String.concat "" vs)) "",
       flat_map (on_line handlers json_parse)
         (removelast (split_lines (String.concat "" vs))))).
  { intros vs. now rewrite (read_loop_spec handlers json_parse vs "" eq_refl). }
  split; [apply H|]. split.
  - intros values' Heq. now rewrite !H, Heq.
  - rewrite !H. cbn [String.concat]. reflexivity.
Qed.

Lemma dispatch_no_error handlers data : ~ In CallError (dispatch handlers data).
Proof.
  unfold dispatch.
  repeat match goal with
  | |- context [if ?b then _ else _] => destruct b
  end; cbn; intuition discriminate.
Qed.

Lemma on_line_no_error handlers json_parse line :
  ~ In CallError (on_line handlers json_parse line).
Proof.
  unfold on_line. destruct (String.prefix _ _); [|tauto].
  destruct (json_parse _); [apply dispatch_no_error | tauto].
Qed.

Lemma read_loop_no_error handlers json_parse values : forall buffer,
  ~ In CallError (snd (read_loop handlers json_parse buffer values)).
Proof.
  induction values as [|value rest IH]; intros buffer; [cbn; tauto|].
  cbn [read_loop]. unfold read_value.
  destruct (read_loop handlers json_parse _ rest) as [final later] eqn:E.
  cbn [snd]. rewrite in_app_iff, in_flat_map. intros [(line & _ & H) | H].
  - now apply on_line_no_error in H.
  - specialize (IH (or_string (last (split_lines (buffer +:+ value))) "")).
    rewrite E in IH. now apply IH.
Qed.

(** X18.  An event of type "error" sent by the server calls no
    callback: its [throw] is caught by the [catch] around the line.  No
    line of the stream ever calls [onError]; it is called only when the
    request is rejected, the response is not ok, there is no body, or a
    read fails, the failure is not an abort and the callback was given. *)
Theorem server_error_events_call_nothing (handlers : Handlers)
  (json_parse : string -> option SseData) :
  (forall data, sse_type data = Some "error" -> dispatch handlers data = [])
  /\ (forall values, ~ In CallError (snd (read_loop handlers json_parse "" values)))
  /\ (forall outcome,
        In CallError (streamChat handlers json_parse outcome) <->
        onError_given handlers = true
        /\ (outcome = FetchRejected false \/ outcome = ResponseNotOk
            \/ outcome = NoReadableStream
            \/ exists values, outcome = Body values (Some false))).
Proof.
  split; [|split].
  - intros data Htype. unfold dispatch, type_is. rewrite Htype.
    repeat (rewrite bool_decide_eq_false_2 by congruence). cbn.
    rewrite bool_decide_eq_true_2 by reflexivity. reflexivity.
  - intros values. apply read_loop_no_error.
  - intros outcome. unfold streamChat, on_failure.
    assert (Hbody : forall values, ~ In CallError (snd (read_loop handlers json_parse "" values)))
      by (intros; apply read_loop_no_error).
    destruct outcome as [aborted | | | values failure];
      [ destruct aborted | | | rewrite in_app_iff; specialize (Hbody values);
                               destruct failure as [[|]|] ];
      destruct (onError_given handlers); cbn; (split; intros H);
      try (exfalso; tauto);
      try (split; [reflexivity|]; eauto 10; fail);
      try (now left); try (now right); try (right; now left);
      destruct H as [Hgiven Hwhich]; try discriminate Hgiven;
      destruct Hwhich as [Hw | [Hw | [Hw | [vs Hw]]]]; discriminate Hw.
Qed.

(** ** Relative times *)

(** X19.  [formatRelativeTime] maps the age of a timestamp to exactly
    one label: "just now" below one minute (also for a timestamp ahead
    of the clock), whole minutes from 1 to 59 below one hour, whole hours
    from 1 to 23 below one day, whole days from 1 to 6 below one week,
    and the formatted date from one week on and for a text that is no
    date. *)
Theorem formatRelativeTime_buckets (toLocaleDateString : option instant -> string)
  (now past : instant) :
  let age := now - past in
  let label := formatRelativeTime toLocaleDateString now (Some past) in
  (age < 60000 -> label = "just now")
  /\ (60000 <= age < 3600000 ->
      label = pretty (age / 60000) +:+ "m ago" /\ 1 <= age / 60000 <= 59)
  /\ (3600000 <= age < 86400000 ->
      label = pretty (age / 3600000) +:+ "h ago" /\ 1 <= age / 3600000 <= 23)
  /\ (86400000 <= age < 604800000 ->
      label = pretty (age / 86400000) +:+ "d ago" /\ 1 <= age / 86400000 <= 6)
  /\ (604800000 <= age -> label = toLocaleDateString (Some past))
  /\ formatRelativeTime toLocaleDateString now None = toLocaleDateString None.
Proof.
  cbv zeta. unfold formatRelativeTime.
  set (age := now - past).
  assert (Hmin : age / 1000 / 60 = age / 60000) by (rewrite Z.div_div by lia; reflexivity).
  assert (Hhour : age / 1000 / 60 / 60 = age / 3600000).
  { rewrite Hmin, Z.div_div by lia. reflexivity. }
  assert (Hday : age / 1000 / 60 / 60 / 24 = age / 86400000).
  { rewrite Hhour, Z.div_div by lia. reflexivity. }
  rewrite Hday, Hhour, Hmin.
  assert (Hdiv : forall k bound, 0 < k -> (age / k < bound <-> age < k * bound)).
  { intros k bound Hk. split; intros H.
    - apply Z.nle_gt. intros Hge. apply (Z.div_le_mono _ _ k) in Hge; [|lia].
      rewrite Z.mul_comm, Z.div_mul in Hge by lia. lia.
    - apply Z.div_lt_upper_bound; lia. }
  pose proof (Hdiv 1000 60 ltac:(lia)) as Hs.
  pose proof (Hdiv 60000 60 ltac:(lia)) as Hm. pose proof (Hdiv 3600000 24 ltac:(lia)) as Hh.
  pose proof (Hdiv 86400000 7 ltac:(lia)) as Hd.
  pose proof (Hdiv 60000 1 ltac:(lia)) as Hm1. pose proof (Hdiv 3600000 1 ltac:(lia)) as Hh1.
  pose proof (Hdiv 86400000 1 ltac:(lia)) as Hd1.
  destruct (Z.ltb_spec (age / 1000) 60);
  destruct (Z.ltb_spec (age / 60000) 60);
  destruct (Z.ltb_spec (age / 3600000) 24);
  destruct (Z.ltb_spec (age / 86400000) 7);
  repeat split; intros; try reflexivity; try lia.
Qed.
